(** * Markdown to HTML converter (src/app.py): a shallow embedding

    A Python [str] is a sequence of Unicode code points; it is modelled as a
    list of code points ([N]).  The regular expressions of the program are
    translated into matchers on such lists, the [while] loops of
    [md_to_html] into a one-iteration function [step] driven by a cursor
    (the list of the lines not yet consumed). *)

From Stdlib Require Import Ascii String DecimalString.
From Stdlib Require Import List NArith Bool Arith Lia.
Import ListNotations.

Set Implicit Arguments.

(** ** Strings *)

Definition char := N.
Definition str := list char.

(** ASCII literal to Python string. *)
Definition py (s : string) : str := map N_of_ascii (list_ascii_of_string s).

Definition NL : char := 10%N.        (* "\n" *)
Definition CR : char := 13%N.        (* "\r" *)
Definition TAB : char := 9%N.        (* "\t" *)
Definition SP : char := 32%N.        (* " " *)
Definition DQ : char := 34%N.        (* the double quote *)
Definition HASH : char := 35%N.      (* "#" *)
Definition AMP : char := 38%N.       (* "&" *)
Definition LPAR : char := 40%N.      (* left parenthesis *)
Definition RPAR : char := 41%N.      (* right parenthesis *)
Definition STAR : char := 42%N.      (* asterisk *)
Definition PLUS : char := 43%N.      (* "+" *)
Definition DASH : char := 45%N.      (* "-" *)
Definition DOT : char := 46%N.       (* "." *)
Definition LT : char := 60%N.        (* "<" *)
Definition GT : char := 62%N.        (* ">" *)
Definition LBRA : char := 91%N.      (* "[" *)
Definition RBRA : char := 93%N.      (* "]" *)
Definition USCORE : char := 95%N.    (* "_" *)
Definition BQUOTE : char := 96%N.    (* the backtick *)
Definition BANG : char := 33%N.      (* "!" *)
Definition PIPE : char := 124%N.     (* "|" *)
Definition TILDE : char := 126%N.    (* "~" *)

Definition eqc (a : char) (c : char) : bool := N.eqb c a.
Definition neqc (a : char) (c : char) : bool := negb (N.eqb c a).

Definition between (lo hi c : N) : bool := (N.leb lo c && N.leb c hi)%bool.

(** [str.isspace] on one code point; it is also the class [\s] of [re] on
    [str] patterns. *)
Definition isspace (c : char) : bool :=
  between 9 13 c || between 28 32 c || eqc 133%N c || eqc 160%N c
  || eqc 5760%N c || between 8192 8202 c || eqc 8232%N c || eqc 8233%N c
  || eqc 8239%N c || eqc 8287%N c || eqc 12288%N c.

(** First code points of the blocks of ten decimal digits (category Nd,
    Unicode 14); U+1D7CE starts five consecutive blocks. *)
Definition decimal_blocks : list N :=
  [48; 1632; 1776; 1984; 2406; 2534; 2662; 2790; 2918; 3046; 3174; 3302;
   3430; 3558; 3664; 3792; 3872; 4160; 4240; 6112; 6160; 6470; 6608; 6784;
   6800; 6992; 7088; 7232; 7248; 42528; 43216; 43264; 43472; 43504; 43600;
   44016; 65296; 66720; 68912; 69734; 69872; 69942; 70096; 70384; 70736;
   70864; 71248; 71360; 71472; 71904; 72016; 72784; 73040; 73120; 92768;
   92864; 93008; 120782; 120792; 120802; 120812; 120822; 123200; 123632;
   125264; 130032]%N.

(** The class [\d] of [re] on [str] patterns. *)
Definition isdecimal (c : char) : bool :=
  existsb (fun a => between a (a + 9) c) decimal_blocks.

(** Line boundaries of [str.splitlines] (CR LF is handled apart). *)
Definition is_linebreak (c : char) : bool :=
  between 10 13 c || between 28 30 c || eqc 133%N c || eqc 8232%N c
  || eqc 8233%N c.

Fixpoint splitlines_from (cur : str) (s : str) : list str :=
  match s with
  | [] => match cur with [] => [] | _ => [rev cur] end
  | c :: s' =>
      if eqc CR c then
        match s' with
        | d :: s'' =>
            if eqc NL d then rev cur :: splitlines_from [] s''
            else rev cur :: splitlines_from [] s'
        | [] => rev cur :: splitlines_from [] s'
        end
      else if is_linebreak c then rev cur :: splitlines_from [] s'
      else splitlines_from (c :: cur) s'
  end.

(** [md.splitlines()] *)
Definition splitlines (md : str) : list str := splitlines_from [] md.

(** [s.lstrip(chars)] and [s.rstrip(chars)], the set of characters given as
    a predicate. *)
Fixpoint lstrip_by (p : char -> bool) (s : str) : str :=
  match s with
  | [] => []
  | c :: s' => if p c then lstrip_by p s' else s
  end.

Fixpoint rstrip_by (p : char -> bool) (s : str) : str :=
  match s with
  | [] => []
  | c :: s' =>
      match rstrip_by p s' with
      | [] => if p c then [] else [c]
      | r => c :: r
      end
  end.

Definition strip_by (p : char -> bool) (s : str) : str :=
  rstrip_by p (lstrip_by p s).

Definition lstrip := lstrip_by isspace.
Definition rstrip := rstrip_by isspace.
Definition strip := strip_by isspace.

(** Longest prefix whose characters satisfy [p], and what follows it. *)
Fixpoint span (p : char -> bool) (s : str) : str * str :=
  match s with
  | [] => ([], [])
  | c :: s' =>
      if p c then let (a, b) := span p s' in (c :: a, b) else ([], s)
  end.

(** [s] without the prefix [pre], when it starts with it. *)
Fixpoint strip_prefix (pre s : str) : option str :=
  match pre, s with
  | [], _ => Some s
  | a :: pre', b :: s' => if N.eqb a b then strip_prefix pre' s' else None
  | _ :: _, [] => None
  end.

Definition startswith (s pre : str) : bool :=
  match strip_prefix pre s with Some _ => true | None => false end.

Definition endswith (s suf : str) : bool := startswith (rev s) (rev suf).

(** [sep.join(parts)] *)
Fixpoint join (sep : str) (parts : list str) : str :=
  match parts with
  | [] => []
  | [x] => x
  | x :: rest => x ++ sep ++ join sep rest
  end.

(** [s.split(sep)] for a one-character separator. *)
Fixpoint split_on (sep : char) (s : str) : list str :=
  match s with
  | [] => [[]]
  | c :: s' =>
      if eqc sep c then [] :: split_on sep s'
      else match split_on sep s' with
           | [] => [[c]]
           | x :: xs => (c :: x) :: xs
           end
  end.

(** [s.expandtabs(tabsize)]: the column restarts after a line feed or a
    carriage return. *)
Fixpoint expandtabs_from (tabsize col : nat) (s : str) : str :=
  match s with
  | [] => []
  | c :: s' =>
      if eqc TAB c then
        match tabsize with
        | O => expandtabs_from tabsize col s'
        | _ => let incr := tabsize - col mod tabsize in
               repeat SP incr ++ expandtabs_from tabsize (col + incr) s'
        end
      else if eqc NL c || eqc CR c then c :: expandtabs_from tabsize 0 s'
      else c :: expandtabs_from tabsize (S col) s'
  end.

Definition expandtabs (tabsize : nat) (s : str) : str :=
  expandtabs_from tabsize 0 s.

(** [str(n)] for a natural number. *)
Definition str_of_nat (n : nat) : str :=
  py (NilEmpty.string_of_uint (Nat.to_uint n)).

(** Number of (possibly overlapping) occurrences of [pat] in [s]. *)
Fixpoint count_sub (pat s : str) : nat :=
  match s with
  | [] => 0
  | _ :: s' => (if startswith s pat then 1 else 0) + count_sub pat s'
  end.

(** ** HTML escaping *)

Definition escape_char (c : char) : str :=
  if eqc AMP c then py "&amp;"
  else if eqc LT c then py "&lt;"
  else if eqc GT c then py "&gt;"
  else [c].

(** [html.escape(text, quote=False)]: ["&"], ["<"] and [">"] are replaced,
    quotes are left alone. *)
Definition escape_html (text : str) : str := flat_map escape_char text.

(** [html.unescape] is a function of Python's library.  Every string this
    program gives it is the output of [escape_html] and of the inline passes
    with the tags removed, where each ["&"] starts one of the three entities
    [escape_html] writes; on those it is the decoder below. *)
Fixpoint html_unescape (s : str) : str :=
  match s with
  | [] => []
  | c :: s' =>
      if eqc AMP c then
        match s' with
        | a :: b :: s2 =>
            if eqc 108%N a && eqc 116%N b then      (* lt *)
              match s2 with
              | d :: s3 =>
                  if eqc 59%N d then LT :: html_unescape s3
                  else c :: html_unescape s'
              | [] => c :: html_unescape s'
              end
            else if eqc 103%N a && eqc 116%N b then  (* gt *)
              match s2 with
              | d :: s3 =>
                  if eqc 59%N d then GT :: html_unescape s3
                  else c :: html_unescape s'
              | [] => c :: html_unescape s'
              end
            else if eqc 97%N a && eqc 109%N b then   (* amp *)
              match s2 with
              | d :: e :: s4 =>
                  if eqc 112%N d && eqc 59%N e then AMP :: html_unescape s4
                  else c :: html_unescape s'
              | _ => c :: html_unescape s'
              end
            else c :: html_unescape s'
        | _ => c :: html_unescape s'
        end
      else c :: html_unescape s'
  end.

(** ** Regular expressions

    The patterns are quoted with blanks between their parts.  Each matcher takes the text from the position where the match is tried
    and gives the groups, and for the patterns used with [sub] the text that
    follows the match. *)

(** ".*" up to the end of the line: "." does not match a line feed. *)
Definition dot_star (s : str) : str * str := span (neqc NL) s.

(** "$": the end of the text, or just before a line feed that ends it. *)
Definition at_end (s : str) : bool :=
  match s with
  | [] => true
  | [c] => eqc NL c
  | _ => false
  end.

(** "(.*?)lit": the shortest run of characters other than a line feed that
    [lit] follows. *)
Fixpoint lazy_dot_star (lit : str) (t : str) : option (str * str) :=
  match strip_prefix lit t with
  | Some rest => Some ([], rest)
  | None =>
      match t with
      | [] => None
      | c :: t' =>
          if eqc NL c then None
          else match lazy_dot_star lit t' with
               | Some (g, rest) => Some (c :: g, rest)
               | None => None
               end
      end
  end.

(** "(.+?)lit" *)
Definition lazy_dot_plus (lit : str) (t : str) : option (str * str) :=
  match t with
  | [] => None
  | c :: t' =>
      if eqc NL c then None
      else match lazy_dot_star lit t' with
           | Some (g, rest) => Some (c :: g, rest)
           | None => None
           end
  end.

(** "open(.+?)close" *)
Definition delimited (opening closing : str) (s : str) : option (str * str) :=
  match strip_prefix opening s with
  | Some t => lazy_dot_plus closing t
  | None => None
  end.

(** LINK_RE = "\[ ([^\]]+) \] \( ([^)]+) \)" *)
Definition LINK_RE (s : str) : option (str * str * str) :=
  match s with
  | c :: s1 =>
      if eqc LBRA c then
        let (g1, r1) := span (neqc RBRA) s1 in
        match g1, r1 with
        | _ :: _, c1 :: c2 :: s2 =>
            if eqc RBRA c1 && eqc LPAR c2 then
              let (g2, r2) := span (neqc RPAR) s2 in
              match g2, r2 with
              | _ :: _, _ :: r3 => Some (g1, g2, r3)
              | _, _ => None
              end
            else None
        | _, _ => None
        end
      else None
  | [] => None
  end.

(** IMAGE_RE = "! \[ ([^\]]* ) \] \( ([^)]+) \)" *)
Definition IMAGE_RE (s : str) : option (str * str * str) :=
  match s with
  | c :: c0 :: s1 =>
      if eqc BANG c && eqc LBRA c0 then
        let (g1, r1) := span (neqc RBRA) s1 in
        match r1 with
        | c1 :: c2 :: s2 =>
            if eqc RBRA c1 && eqc LPAR c2 then
              let (g2, r2) := span (neqc RPAR) s2 in
              match g2, r2 with
              | _ :: _, _ :: r3 => Some (g1, g2, r3)
              | _, _ => None
              end
            else None
        | _ => None
        end
      else None
  | _ => None
  end.

(** INLINE_CODE_RE = "` ([^`]+) `" *)
Definition INLINE_CODE_RE (s : str) : option (str * str) :=
  match s with
  | c :: s1 =>
      if eqc BQUOTE c then
        let (g1, r1) := span (neqc BQUOTE) s1 in
        match g1, r1 with
        | _ :: _, _ :: r2 => Some (g1, r2)
        | _, _ => None
        end
      else None
  | [] => None
  end.

(** BOLD_RE = "\*\* (.+?) \*\*", ITALIC_RE = "\* (.+?) \*",
    STRIKE_RE = "~~ (.+?) ~~" *)
Definition BOLD_RE := delimited [STAR; STAR] [STAR; STAR].
Definition ITALIC_RE := delimited [STAR] [STAR].
Definition STRIKE_RE := delimited [TILDE; TILDE] [TILDE; TILDE].

(** The pattern "<.*?>" of the description clean-up. *)
Definition TAG_RE (s : str) : option (str * str) :=
  match s with
  | c :: t => if eqc LT c then lazy_dot_star [GT] t else None
  | [] => None
  end.

(** [pattern.sub(repl, text)] for a pattern that matches no empty text:
    [m] gives the replacement and the text after the match when the pattern
    matches at the current position.  [skip] counts the characters of the
    last match that are still to be passed over. *)
Fixpoint sub_from (m : str -> option (str * str)) (skip : nat) (s : str)
  : str :=
  match s with
  | [] => []
  | c :: s' =>
      match skip with
      | S k => sub_from m k s'
      | O =>
          match m s with
          | Some (out, rest) =>
              out ++ sub_from m (length s' - length rest) s'
          | None => c :: sub_from m 0 s'
          end
      end
  end.

Definition re_sub (m : str -> option (str * str)) (text : str) : str :=
  sub_from m 0 text.

(** BLOCKQUOTE_RE = "^ > \s? ( .* )", group 1. *)
Definition BLOCKQUOTE_RE (s : str) : option str :=
  match s with
  | c :: s1 =>
      if eqc GT c then
        match s1 with
        | d :: s2 => if isspace d then Some (fst (dot_star s2))
                     else Some (fst (dot_star s1))
        | [] => Some []
        end
      else None
  | [] => None
  end.

(** HR_RE = "^ \s* ( (?:-{3,}) | (?:\*{3,}) | (?:_{3,}) ) \s* $" *)
Definition hr_run (c : char) (s : str) : bool :=
  let (run, rest) := span (eqc c) s in
  (3 <=? length run) && match lstrip rest with [] => true | _ => false end.

Definition HR_RE (s : str) : bool :=
  let t := lstrip s in
  hr_run DASH t || hr_run STAR t || hr_run USCORE t.

(** TABLE_ROW_RE = "^ \s* \| (.+) \| \s* $", also written in full in the table
    branch of [md_to_html]: after the leading white space a ["|"], at least
    one character of the same line, and a ["|"] that only white space
    follows. *)
Definition TABLE_ROW_RE (s : str) : bool :=
  match lstrip s with
  | c :: body =>
      eqc PIPE c &&
      match rev (rstrip body) with
      | d :: inner =>
          eqc PIPE d && negb (length inner =? 0) && forallb (neqc NL) inner
      | [] => false
      end
  | [] => false
  end.

(** UL_ITEM_RE = "^ \s* [-+*] \s+ ( .* )", group 1. *)
Definition UL_ITEM_RE (s : str) : option str :=
  match lstrip s with
  | c :: s1 =>
      if eqc DASH c || eqc PLUS c || eqc STAR c then
        match span isspace s1 with
        | (_ :: _, s2) => Some (fst (dot_star s2))
        | ([], _) => None
        end
      else None
  | [] => None
  end.

(** OL_ITEM_RE = "^ \s* (\d+) [.)] \s+ ( .* )", groups 1 and 2. *)
Definition OL_ITEM_RE (s : str) : option (str * str) :=
  let (digits, s1) := span isdecimal (lstrip s) in
  match digits, s1 with
  | _ :: _, c :: s2 =>
      if eqc DOT c || eqc RPAR c then
        match span isspace s2 with
        | (_ :: _, s3) => Some (digits, fst (dot_star s3))
        | ([], _) => None
        end
      else None
  | _, _ => None
  end.

(** HEADING_RE = "^ (#{1,6}) \s* ( .* )", groups 1 and 2. *)
Definition HEADING_RE (s : str) : option (str * str) :=
  let (hashes, s1) := span (eqc HASH) s in
  match hashes with
  | [] => None
  | _ :: _ =>
      let g1 := firstn 6 hashes in
      Some (g1, fst (dot_star (lstrip (skipn 6 hashes ++ s1))))
  end.

(** FENCE_RE = "^ \s* ``` ( .* ) $", group 1. *)
Definition FENCE_RE (s : str) : option str :=
  match strip_prefix [BQUOTE; BQUOTE; BQUOTE] (lstrip s) with
  | Some t => let (g1, rest) := dot_star t in
              if at_end rest then Some g1 else None
  | None => None
  end.

Definition matches {A : Type} (o : option A) : bool :=
  match o with Some _ => true | None => false end.

(** ** Inline parsing *)

Definition _img (alt0 src0 : str) : str :=
  let alt := escape_html alt0 in
  let src := escape_html src0 in
  py "<img src=" ++ [DQ] ++ src ++ [DQ] ++ py " alt=" ++ [DQ] ++ alt ++ [DQ]
  ++ py " loading=" ++ [DQ] ++ py "lazy" ++ [DQ] ++ py ">".

Definition _link (t0 u0 : str) : str :=
  let t := escape_html t0 in
  let u := escape_html u0 in
  py "<a href=" ++ [DQ] ++ u ++ [DQ] ++ py ">" ++ t ++ py "</a>".

(** The six passes of [inline_parse], each a [sub] on the result of the one
    before. *)
Definition sub_image : str -> str :=
  re_sub (fun s => match IMAGE_RE s with
                   | Some (g1, g2, rest) => Some (_img g1 g2, rest)
                   | None => None
                   end).

Definition sub_link : str -> str :=
  re_sub (fun s => match LINK_RE s with
                   | Some (g1, g2, rest) => Some (_link g1 g2, rest)
                   | None => None
                   end).

Definition wrap (tag : string) (re : str -> option (str * str)) (s : str)
  : option (str * str) :=
  match re s with
  | Some (g1, rest) =>
      Some (py "<" ++ py tag ++ py ">" ++ g1 ++ py "</" ++ py tag ++ py ">",
            rest)
  | None => None
  end.

Definition sub_code : str -> str := re_sub (wrap "code" INLINE_CODE_RE).
Definition sub_bold : str -> str := re_sub (wrap "strong" BOLD_RE).
Definition sub_italic : str -> str := re_sub (wrap "em" ITALIC_RE).
Definition sub_strike : str -> str := re_sub (wrap "del" STRIKE_RE).

Definition inline_parse (text : str) : str :=
  let text := sub_image text in
  let text := sub_link text in
  let text := sub_code text in
  let text := sub_bold text in
  let text := sub_italic text in
  let text := sub_strike text in
  text.

(** ** Tables *)

(** [[cell.strip() for cell in line.strip("|").split("|")]] *)
Definition row_cells (line : str) : list str :=
  map strip (split_on PIPE (strip_by (eqc PIPE) line)).

Definition th (c : str) : str := py "<th>" ++ c ++ py "</th>".
Definition td (c : str) : str := py "<td>" ++ c ++ py "</td>".

(** [parse_table(lines)]; [None] is the [IndexError] of [rows[0]] on an
    empty list. *)
Definition parse_table (lines : list str) : option str :=
  let rows := map row_cells lines in
  match rows with
  | [] => None
  | header :: _ =>
      let body := if 2 <? length rows then skipn 2 rows else skipn 1 rows in
      let html :=
        py "<table>" ++ [NL] ++ py "<thead><tr>"
        ++ concat (map th header) ++ py "</tr></thead>" ++ [NL] in
      let html := html ++ py "<tbody>" in
      let html :=
        fold_left
          (fun html r => html ++ py "<tr>" ++ concat (map td r) ++ py "</tr>")
          body html in
      let html := html ++ py "</tbody></table>" in
      Some html
  end.

(** ** The document driver *)

Inductive list_type := ul | ol.

Definition tag_of (t : list_type) : str :=
  match t with ul => py "ul" | ol => py "ol" end.

(** The local variables of [md_to_html] that live across the iterations of
    its main loop; the cursor [i] is the list of the lines from [lines[i]]
    on. *)
Record state := mkState {
  html_lines : list str;
  title : option str;
  meta_desc : option str;
  inside_code : bool;
  code_lang : str;
  code_lines : list str
}.

Definition init_state : state :=
  mkState [] None None false [] [].

Definition set_html_lines (h : list str) (st : state) : state :=
  mkState h (title st) (meta_desc st) (inside_code st) (code_lang st)
    (code_lines st).

Definition append_html (x : str) (st : state) : state :=
  set_html_lines (html_lines st ++ [x]) st.

Definition set_title (t : option str) (st : state) : state :=
  mkState (html_lines st) t (meta_desc st) (inside_code st) (code_lang st)
    (code_lines st).

Definition set_meta_desc (m : option str) (st : state) : state :=
  mkState (html_lines st) (title st) m (inside_code st) (code_lang st)
    (code_lines st).

Definition open_fence (lang : str) (st : state) : state :=
  mkState (html_lines st) (title st) (meta_desc st) true lang [].

Definition close_fence (st : state) : state :=
  mkState (html_lines st) (title st) (meta_desc st) false (code_lang st)
    (code_lines st).

Definition append_code (l : str) (st : state) : state :=
  mkState (html_lines st) (title st) (meta_desc st) (inside_code st)
    (code_lang st) (code_lines st ++ [l]).

(** Python's truth value of an [Optional[str]]. *)
Definition truthy (o : option str) : bool :=
  match o with
  | Some (_ :: _) => true
  | _ => false
  end.

(** [html_lines[-1]]; [None] is the [IndexError] on an empty list. *)
Fixpoint last_line (l : list str) : option str :=
  match l with
  | [] => None
  | [x] => Some x
  | _ :: l' => last_line l'
  end.

(** [html_lines[-1] = x] on a list that is not empty. *)
Definition set_last (x : str) (l : list str) : list str :=
  removelast l ++ [x].

(** [close_inline_li()] *)
Definition close_inline_li (html_lines : list str) : list str :=
  match last_line html_lines with
  | None => html_lines
  | Some x =>
      if negb (endswith x (py "</li>")) then
        set_last (rstrip x ++ py "</li>") html_lines
      else html_lines
  end.

(** [_list_match(l)] *)
Definition _list_match (l : str) : option (list_type * nat * str) :=
  let indent := length (expandtabs 4 (fst (span isspace l))) in
  match UL_ITEM_RE l with
  | Some g1 => Some (ul, indent, strip g1)
  | None =>
      match OL_ITEM_RE l with
      | Some (_, g2) => Some (ol, indent, strip g2)
      | None => None
      end
  end.

Definition open_tag (t : list_type) : str := py "<" ++ tag_of t ++ py ">".
Definition close_tag (t : list_type) : str := py "</" ++ tag_of t ++ py ">".

(** The dedent loop: [while stack and stack[-1][0] > indent]; the top of the
    stack is the head of the list. *)
Fixpoint pop_deeper (indent : nat) (stack : list (nat * list_type))
  (html_lines : list str) : list (nat * list_type) * list str :=
  match stack with
  | (top_indent, ttype) :: stack' =>
      if indent <? top_indent then
        pop_deeper indent stack' (html_lines ++ [close_tag ttype])
      else (stack, html_lines)
  | [] => (stack, html_lines)
  end.

(** The closing loop [while stack] at the end of a run of list items. *)
Fixpoint close_lists (stack : list (nat * list_type)) (html_lines : list str)
  : list str :=
  match stack with
  | (_, ttype) :: stack' =>
      close_lists stack' (html_lines ++ [close_tag ttype])
  | [] => html_lines
  end.

Definition li (content : str) : str :=
  py "<li>" ++ inline_parse (escape_html content).

(** The inner [while] of the list branch; it gives the cursor, the stack and
    [html_lines] when it stops, and [None] when [html_lines[-1]] raises. *)
Fixpoint list_loop (lines : list str) (stack : list (nat * list_type))
  (html_lines : list str)
  : option (list str * list (nat * list_type) * list str) :=
  match lines with
  | [] => Some (lines, stack, html_lines)
  | l :: rest =>
      if negb (matches (UL_ITEM_RE l) || matches (OL_ITEM_RE l)) then
        Some (lines, stack, html_lines)
      else
        match _list_match l with
        | None => Some (lines, stack, html_lines)
        | Some (list_type, indent, content) =>
            match stack with
            | [] =>
                list_loop rest [(indent, list_type)]
                  ((html_lines ++ [open_tag list_type]) ++ [li content])
            | (top_indent, top_type) :: _ =>
                if top_indent <? indent then
                  match last_line html_lines with
                  | None => None
                  | Some x =>
                      list_loop rest ((indent, list_type) :: stack)
                        (set_last (rstrip x ++ open_tag list_type) html_lines
                         ++ [li content])
                  end
                else if indent =? top_indent then
                  list_loop rest stack
                    (close_inline_li html_lines ++ [li content])
                else
                  let html_lines := close_inline_li html_lines in
                  let (stack, html_lines) :=
                    pop_deeper indent stack html_lines in
                  let html_lines := close_inline_li html_lines in
                  list_loop rest stack (html_lines ++ [li content])
            end
        end
  end.

(** The rendering of the collected paragraph lines, [parts]. *)
Fixpoint para_parts (para_lines : list str) : list str :=
  match para_lines with
  | [] => []
  | pl0 :: more =>
      let pl := rstrip_by (eqc NL) pl0 in
      (if endswith pl [SP; SP] then
         [inline_parse (escape_html (firstn (length pl - 2) pl)); py "<br>"]
       else
         inline_parse (escape_html pl)
         :: match more with [] => [] | _ => [[SP]] end)
      ++ para_parts more
  end.

(** The continuation test of the paragraph collection. *)
Definition para_continues (l : str) : bool :=
  negb (length (strip l) =? 0)
  && negb (matches (HEADING_RE l))
  && negb (matches (UL_ITEM_RE l))
  && negb (matches (OL_ITEM_RE l))
  && negb (matches (FENCE_RE l)).

(** Longest prefix of the lines that satisfy [p], and the lines after it. *)
Fixpoint span_lines (p : str -> bool) (lines : list str)
  : list str * list str :=
  match lines with
  | [] => ([], [])
  | l :: rest =>
      if p l then let (a, b) := span_lines p rest in (l :: a, b)
      else ([], lines)
  end.

(** The tags removed with "<.*?>". *)
Definition strip_tags : str -> str :=
  re_sub (fun s => match TAG_RE s with
                   | Some (_, rest) => Some ([], rest)
                   | None => None
                   end).

(** The description made of the first paragraph. *)
Definition describe (parsed : str) : str :=
  let clean := html_unescape (strip_tags parsed) in
  if 160 <? length clean then firstn 157 clean ++ py "..." else clean.

Definition bq_line (l : str) : bool := matches (BLOCKQUOTE_RE (rstrip l)).

Definition bq_item (l : str) : str :=
  match BLOCKQUOTE_RE (rstrip l) with
  | Some g1 => inline_parse (escape_html (strip g1))
  | None => []
  end.

(** One iteration of the main [while]: [raw = lines[i]], [rest] the lines
    after it; the result is the cursor and the variables at the next
    iteration, and [None] when the iteration raises. *)
Definition step (raw : str) (rest : list str) (st : state)
  : option (list str * state) :=
  let line := rstrip raw in
  match FENCE_RE line with
  | Some g1 =>
      if negb (inside_code st) then Some (rest, open_fence (strip g1) st)
      else
        let st := close_fence st in
        let code_html := join [NL] (map escape_html (code_lines st)) in
        let lang_class :=
          match code_lang st with
          | _ :: _ => py " class=" ++ [DQ] ++ py "language-"
                      ++ escape_html (code_lang st) ++ [DQ]
          | [] => []
          end in
        Some (rest,
              append_html (py "<pre><code" ++ lang_class ++ py ">"
                           ++ code_html ++ [NL] ++ py "</code></pre>") st)
  | None =>
  if inside_code st then Some (rest, append_code raw st)
  else if length (strip line) =? 0 then Some (rest, st)
  else
  match HEADING_RE line with
  | Some (g1, g2) =>
      let level := length g1 in
      let text := strip g2 in
      let parsed := inline_parse (escape_html text) in
      let st := if negb (truthy (title st)) then set_title (Some text) st
                else st in
      Some (rest,
            append_html (py "<h" ++ str_of_nat level ++ py ">" ++ parsed
                         ++ py "</h" ++ str_of_nat level ++ py ">") st)
  | None =>
  if matches (UL_ITEM_RE line) || matches (OL_ITEM_RE line) then
    match list_loop (raw :: rest) [] (html_lines st) with
    | Some (lines', stack, html_lines') =>
        let html_lines' := close_inline_li html_lines' in
        let html_lines' := close_lists stack html_lines' in
        Some (lines', set_html_lines html_lines' st)
    | None => None
    end
  else if TABLE_ROW_RE line then
    let (more, lines') := span_lines TABLE_ROW_RE rest in
    let table_lines := line :: more in
    match parse_table table_lines with
    | Some t => Some (lines', append_html t st)
    | None => None
    end
  else if matches (BLOCKQUOTE_RE line) then
    let (quoted, lines') := span_lines bq_line (raw :: rest) in
    let items := map bq_item quoted in
    let block := join [SP] items in
    Some (lines',
          append_html (py "<blockquote>" ++ block ++ py "</blockquote>") st)
  else if HR_RE line then Some (rest, append_html (py "<hr>") st)
  else
    let (more, lines') := span_lines para_continues rest in
    let para_lines := raw :: more in
    let parsed := strip (concat (para_parts para_lines)) in
    let st := if negb (truthy (meta_desc st))
              then set_meta_desc (Some (describe parsed)) st else st in
    Some (lines', append_html (py "<p>" ++ parsed ++ py "</p>") st)
  end
  end.

(** The main [while i < len(lines)]; [fuel] bounds the number of its
    iterations. *)
Fixpoint loop (fuel : nat) (lines : list str) (st : state) : option state :=
  match lines with
  | [] => Some st
  | raw :: rest =>
      match fuel with
      | O => None
      | S fuel' =>
          match step raw rest st with
          | Some (lines', st') => loop fuel' lines' st'
          | None => None
          end
      end
  end.

(** The dictionary [md_to_html] returns. *)
Record parsed := mkParsed {
  p_title : str;
  p_meta : str;
  p_body : str
}.

Definition default_title : str := py "Lesson".

Definition or_else (o : option str) (d : str) : str :=
  match o with
  | Some ((_ :: _) as t) => t
  | _ => d
  end.

Definition finish (st : state) : parsed :=
  let body := join [NL] (html_lines st) in
  mkParsed (or_else (title st) default_title) (or_else (meta_desc st) [])
    body.

(** [md_to_html(md)]: every iteration of the main loop moves the cursor
    forward, so one unit of fuel per line is enough.  [None] would be an
    exception or a loop that does not end. *)
Definition md_to_html (md : str) : option parsed :=
  let lines := splitlines md in
  match loop (length lines) lines init_state with
  | Some st => Some (finish st)
  | None => None
  end.

(** ** The full page *)

Definition attr (name : string) (value : str) : str :=
  py name ++ py "=" ++ [DQ] ++ value ++ [DQ].

Definition meta_tag (key name : string) (content : str) : str :=
  py "<meta " ++ attr key (py name) ++ py " " ++ attr "content" content
  ++ py ">".

Definition link_tag (rel : string) (href : option str) : str :=
  match href with
  | Some ((_ :: _) as h) =>
      py "<link " ++ attr "rel" (py rel) ++ py " "
      ++ attr "href" (escape_html h) ++ py ">"
  | _ => []
  end.

(** The rows of the page template of [render_full_html], with their
    fields filled in. *)
Definition page_rows (parsed : parsed) (css_href canonical : option str)
  : list str :=
  let title := escape_html (p_title parsed) in
  let meta := match p_meta parsed with
              | _ :: _ => escape_html (p_meta parsed)
              | [] => []
              end in
  let body := p_body parsed in
  let css_link := link_tag "stylesheet" css_href in
  let canonical_tag := link_tag "canonical" canonical in
  let og_title := title in
  let og_desc := meta in
  let og_type := py "article" in
  [ py "<!doctype html>";
    py "<html " ++ attr "lang" (py "en") ++ py ">";
    [];
    py "<head>";
    py "<meta " ++ attr "charset" (py "utf-8") ++ py ">";
    meta_tag "name" "viewport" (py "width=device-width, initial-scale=1");
    py "<title>" ++ title ++ py "</title>";
    meta_tag "name" "description" meta;
    meta_tag "name" "robots" (py "index, follow");
    canonical_tag;
    css_link;
    meta_tag "property" "og:title" og_title;
    meta_tag "property" "og:description" og_desc;
    meta_tag "property" "og:type" og_type;
    meta_tag "name" "twitter:card" (py "summary");
    py "</head>";
    [];
    py "<body>";
    py "<main>";
    body;
    py "</main>";
    py "</body>";
    [];
    py "</html>" ].

(** [render_full_html(parsed, css_href, canonical)] *)
Definition render_full_html (parsed : parsed) (css_href canonical : option str)
  : str :=
  join [NL] (page_rows parsed css_href canonical).

(** ** Notions used to state the properties *)

(** The text the heading branch reads on a line: group 2, trimmed. *)
Definition heading_text (l : str) : option str :=
  match HEADING_RE (rstrip l) with
  | Some (_, g2) => Some (strip g2)
  | None => None
  end.

(** One pass over the lines that only follows the fence flag: the text of
    the first heading line outside fenced code whose text is not empty. *)
Fixpoint first_title (inside : bool) (lines : list str) : option str :=
  match lines with
  | [] => None
  | raw :: rest =>
      if matches (FENCE_RE (rstrip raw)) then first_title (negb inside) rest
      else if inside then first_title inside rest
      else match heading_text raw with
           | Some ((_ :: _) as t) => Some t
           | _ => first_title inside rest
           end
  end.

(** The same pass, stopping at the first heading line outside fenced code
    whatever its text. *)
Fixpoint first_heading (inside : bool) (lines : list str) : option str :=
  match lines with
  | [] => None
  | raw :: rest =>
      if matches (FENCE_RE (rstrip raw)) then first_heading (negb inside) rest
      else if inside then first_heading inside rest
      else match heading_text raw with
           | Some t => Some t
           | None => first_heading inside rest
           end
  end.

(** The first [n] iterations of the main loop. *)
Fixpoint steps (n : nat) (lines : list str) (st : state)
  : option (list str * state) :=
  match n, lines with
  | S n', raw :: rest =>
      match step raw rest st with
      | Some (lines', st') => steps n' lines' st'
      | None => None
      end
  | _, _ => Some (lines, st)
  end.

(** A line the main loop starts a paragraph on, outside fenced code. *)
Definition starts_paragraph (raw : str) : bool :=
  let line := rstrip raw in
  negb (matches (FENCE_RE line))
  && negb (length (strip line) =? 0)
  && negb (matches (HEADING_RE line))
  && negb (matches (UL_ITEM_RE line) || matches (OL_ITEM_RE line))
  && negb (TABLE_ROW_RE line)
  && negb (matches (BLOCKQUOTE_RE line))
  && negb (HR_RE line).

(** A character of text without inline markup: no asterisk, backtick, tilde
    or opening square bracket, and no line feed. *)
Definition plain_char (c : char) : bool :=
  neqc STAR c && neqc BQUOTE c && neqc TILDE c && neqc LBRA c && neqc NL c.

(** A line of plain text: no inline markup, and no two spaces at its end
    (the mark of a line break). *)
Definition plain (s : str) : bool :=
  forallb plain_char s && negb (endswith s [SP; SP]).

(** The description the code makes of a text: the first 157 characters and
    an ellipsis when it has more than 160 characters. *)
Definition truncated (text : str) : str :=
  if 160 <? length text then firstn 157 text ++ py "..." else text.

(** The characters [escape_html] rewrites. *)
Definition special (c : char) : bool := eqc AMP c || eqc LT c || eqc GT c.





(** What follows a maximal run of lines that satisfy [p]: nothing, or a
    line that does not satisfy it. *)
Definition ends_run (p : str -> bool) (lines : list str) : bool :=
  match lines with
  | [] => true
  | l :: _ => negb (p l)
  end.

(** A character that neither the escaping nor an inline pattern reads: no
    inline markup, no bracket or parenthesis that ends a link part, none of
    the three characters [escape_html] rewrites.  The double quote is such a
    character. *)
Definition safe (c : char) : bool :=
  plain_char c && neqc RBRA c && neqc RPAR c && negb (special c).



(** The first character of a line after its leading white space. *)
Definition lead (s : str) : option char := hd_error (lstrip s).

(** A line without a line feed. *)
Definition no_nl (l : str) : Prop := forallb (neqc NL) l = true.

(** A line that is neither a fence marker nor a heading for the main loop. *)
Definition neutral (l : str) : bool :=
  negb (matches (FENCE_RE (rstrip l))) && negb (matches (HEADING_RE (rstrip l))).

(** The test of the inner loop of the list branch. *)
Definition list_item (l : str) : bool :=
  matches (UL_ITEM_RE l) || matches (OL_ITEM_RE l).

(** The title the loop will end with, seen from an iteration. *)
Definition title_ahead (st : state) (lines : list str) : str :=
  or_else (if truthy (title st) then title st
           else first_title (inside_code st) lines) default_title.

(** A line the main loop does not read as a fence marker. *)
Definition not_fence (l : str) : bool := negb (matches (FENCE_RE (rstrip l))).


(** A line that is empty or white space. *)
Definition blank_line (l : str) : bool := length (strip l) =? 0.

(** The fragment of a fenced block with language tag [lang] and lines
    [code]. *)
Definition code_block_html (lang : str) (code : list str) : str :=
  py "<pre><code"
  ++ match lang with
     | _ :: _ => py " class=" ++ [DQ] ++ py "language-" ++ escape_html lang
                 ++ [DQ]
     | [] => []
     end
  ++ py ">" ++ join [NL] (map escape_html code) ++ [NL]
  ++ py "</code></pre>".

(** The marker of an unordered list item. *)
Definition bullet (m : char) : bool := eqc DASH m || eqc PLUS m || eqc STAR m.

(** A list item line: the marker, one space and the text. *)
Definition item_line (m : char) (x : str) : str := m :: SP :: x.

(** A closed list item. *)
Definition closed_li (y : str) : str := py "<li>" ++ y ++ py "</li>".



(** How many times the character [c] occurs in [s]. *)
Definition count_char (c : char) (s : str) : nat :=
  length (filter (eqc c) s).

(** 1 when an optional address is given and not empty (what the template
    tests before it writes a link row), 0 otherwise. *)
Definition given (href : option str) : nat :=
  match href with
  | Some (_ :: _) => 1
  | _ => 0
  end.

(** * Properties *)

Example escape_html_ex :
  escape_html (py "a<b & c>" ++ [DQ]) = py "a&lt;b &amp; c&gt;" ++ [DQ].
Proof. reflexivity. Qed.

Example splitlines_ex :
  splitlines (py "a" ++ [CR; NL] ++ py "b" ++ [NL; NL] ++ py "c" ++ [NL])
  = [py "a"; py "b"; []; py "c"].
Proof. reflexivity. Qed.

(** ** Strings: stripping and spans *)

Lemma rstrip_by_app (p : char -> bool) (s : str) :
  exists w, s = rstrip_by p s ++ w /\ forallb p w = true.
Proof.
  induction s as [|c s [w [E F]]]; simpl.
  - exists []. auto.
  - destruct (rstrip_by p s) as [|d r] eqn:R.
    + simpl in E. subst w. destruct (p c) eqn:Pc.
      * exists (c :: s). simpl. rewrite Pc. auto.
      * exists s. auto.
    + exists w. split; [simpl; f_equal; exact E | exact F].
Qed.

Lemma lstrip_by_app (p : char -> bool) (s w : str) :
  lstrip_by p s <> [] -> lstrip_by p (s ++ w) = lstrip_by p s ++ w.
Proof.
  induction s as [|c s IH]; simpl; intros H.
  - congruence.
  - destruct (p c); auto.
Qed.

Lemma span_app_stop (p : char -> bool) (w : str) :
  forall s a c b, span p s = (a, c :: b) -> span p (s ++ w) = (a, c :: b ++ w).
Proof.
  induction s as [|d s IH]; simpl; intros a c b H.
  - discriminate.
  - destruct (p d) eqn:Pd.
    + destruct (span p s) as [a' b'] eqn:E. inversion H; subst.
      rewrite (IH _ _ _ eq_refl). reflexivity.
    + inversion H; subst. reflexivity.
Qed.

Lemma span_app_nonempty (p : char -> bool) (s w : str) :
  fst (span p s) <> [] -> fst (span p (s ++ w)) <> [].
Proof.
  destruct s as [|d s]; simpl; intros H.
  - congruence.
  - destruct (p d).
    + destruct (span p (s ++ w)). simpl. discriminate.
    + simpl in H. congruence.
Qed.

Lemma span_lines_length (p : str -> bool) :
  forall lines a b, span_lines p lines = (a, b) -> length b <= length lines.
Proof.
  induction lines as [|l lines IH]; simpl; intros a b H.
  - inversion H. auto.
  - destruct (p l).
    + destruct (span_lines p lines) as [a' b'] eqn:E. inversion H; subst.
      specialize (IH _ _ eq_refl). lia.
    + inversion H. simpl. lia.
Qed.

Lemma span_lines_app (p : str -> bool) :
  forall lines a b, span_lines p lines = (a, b) ->
    lines = a ++ b /\ Forall (fun l => p l = true) a.
Proof.
  induction lines as [|l lines IH]; simpl; intros a b H.
  - inversion H. auto.
  - destruct (p l) eqn:Pl.
    + destruct (span_lines p lines) as [a' b'] eqn:E. inversion H; subst.
      destruct (IH _ _ eq_refl) as [E1 F1]. split.
      * simpl. f_equal. exact E1.
      * constructor; assumption.
    + inversion H. auto.
Qed.

Lemma last_line_none (l : list str) : last_line l = None -> l = [].
Proof.
  induction l as [|x l IH]; simpl; auto.
  destruct l; [discriminate|]. intros H. specialize (IH H). discriminate.
Qed.

(** ** The cursor moves forward *)

Lemma UL_ITEM_RE_app (a w : str) :
  matches (UL_ITEM_RE a) = true -> matches (UL_ITEM_RE (a ++ w)) = true.
Proof.
  unfold UL_ITEM_RE, lstrip. intros H.
  destruct (lstrip_by isspace a) as [|c s1] eqn:E; [discriminate|].
  rewrite lstrip_by_app by (rewrite E; discriminate). rewrite E. simpl.
  destruct (eqc DASH c || eqc PLUS c || eqc STAR c); [|discriminate].
  destruct (span isspace s1) as [x y] eqn:S1.
  destruct x as [|x0 x]; [discriminate|].
  pose proof (@span_app_nonempty isspace s1 w) as N. rewrite S1 in N.
  destruct (span isspace (s1 ++ w)) as [x' y']. simpl in N.
  destruct x'; [exfalso; apply N; [discriminate | reflexivity] | reflexivity].
Qed.

Lemma OL_ITEM_RE_app (a w : str) :
  matches (OL_ITEM_RE a) = true -> matches (OL_ITEM_RE (a ++ w)) = true.
Proof.
  unfold OL_ITEM_RE, lstrip. intros H.
  destruct (span isdecimal (lstrip_by isspace a)) as [digits s1] eqn:E.
  destruct digits as [|d0 digits]; [discriminate|].
  destruct s1 as [|c s2]; [discriminate|].
  assert (L : lstrip_by isspace a <> []).
  { intros Z. rewrite Z in E. discriminate. }
  rewrite lstrip_by_app by exact L.
  rewrite (span_app_stop _ w _ E).
  destruct (eqc DOT c || eqc RPAR c); [|discriminate].
  destruct (span isspace s2) as [x y] eqn:S2.
  destruct x as [|x0 x]; [discriminate|].
  pose proof (@span_app_nonempty isspace s2 w) as N. rewrite S2 in N.
  destruct (span isspace (s2 ++ w)) as [x' y']. simpl in N.
  destruct x'; [exfalso; apply N; [discriminate | reflexivity] | reflexivity].
Qed.

Lemma list_item_rstrip (l : str) :
  matches (UL_ITEM_RE (rstrip l)) || matches (OL_ITEM_RE (rstrip l)) = true ->
  matches (UL_ITEM_RE l) || matches (OL_ITEM_RE l) = true.
Proof.
  destruct (rstrip_by_app isspace l) as [w [E _]]. fold (rstrip l) in E.
  intros H. rewrite E. apply orb_true_iff in H. apply orb_true_iff.
  destruct H as [H|H]; [left; apply UL_ITEM_RE_app | right; apply OL_ITEM_RE_app];
    exact H.
Qed.

Lemma list_match_some (l : str) :
  matches (UL_ITEM_RE l) || matches (OL_ITEM_RE l) = true ->
  exists r, _list_match l = Some r.
Proof.
  unfold _list_match. intros H.
  destruct (UL_ITEM_RE l); [eauto|].
  destruct (OL_ITEM_RE l) as [[g1 g2]|]; [eauto | discriminate].
Qed.

Lemma list_loop_some :
  forall lines stack h, stack = [] \/ h <> [] ->
    exists lines' stack' h',
      list_loop lines stack h = Some (lines', stack', h')
      /\ length lines' <= length lines.
Proof.
  induction lines as [|l rest IH]; intros stack h Inv; simpl.
  - eauto.
  - destruct (negb (matches (UL_ITEM_RE l) || matches (OL_ITEM_RE l))).
    { eexists _, _, _. split; [reflexivity | simpl; lia]. }
    destruct (_list_match l) as [[[lt indent] content]|].
    2:{ eexists _, _, _. split; [reflexivity | simpl; lia]. }
    assert (NE : forall x : list str, x ++ [li content] <> []).
    { intros x Z. destruct x; discriminate. }
    destruct stack as [|[top_indent top_type] stack'].
    + destruct (IH [(indent, lt)] ((h ++ [open_tag lt]) ++ [li content]))
        as (a & b & c & E & L); [right; apply NE|].
      rewrite E. eexists _, _, _. split; [reflexivity | lia].
    + destruct Inv as [Z|Hne]; [discriminate|].
      destruct (top_indent <? indent).
      * destruct (last_line h) as [x|] eqn:LL.
        2:{ apply last_line_none in LL. contradiction. }
        edestruct IH as (a & b & c & E & L); [right; apply NE|].
        rewrite E. eexists _, _, _. split; [reflexivity | lia].
      * destruct (indent =? top_indent).
        -- edestruct IH as (a & b & c & E & L); [right; apply NE|].
           rewrite E. eexists _, _, _. split; [reflexivity | lia].
        -- destruct (pop_deeper indent ((top_indent, top_type) :: stack')
                       (close_inline_li h)) as [stack2 h2].
           edestruct IH as (a & b & c & E & L); [right; apply NE|].
           rewrite E. eexists _, _, _. split; [reflexivity | lia].
Qed.

Lemma list_branch_advances (raw : str) (rest h : list str) :
  matches (UL_ITEM_RE (rstrip raw)) || matches (OL_ITEM_RE (rstrip raw)) = true ->
  exists lines' stack' h',
    list_loop (raw :: rest) [] h = Some (lines', stack', h')
    /\ length lines' <= length rest.
Proof.
  intros H. apply list_item_rstrip in H. simpl. rewrite H. simpl.
  destruct (list_match_some _ H) as [[[lt indent] content] E]. rewrite E.
  apply list_loop_some. right. intros Z.
  destruct (h ++ [open_tag lt]); discriminate.
Qed.

(** Every iteration of the main loop returns normally and consumes at least
    the line under the cursor. *)
Lemma step_advances (raw : str) (rest : list str) (st : state) :
  exists lines' st',
    step raw rest st = Some (lines', st') /\ length lines' <= length rest.
Proof.
  unfold step.
  destruct (FENCE_RE (rstrip raw)).
  { destruct (negb (inside_code st)); eauto. }
  destruct (inside_code st); [eauto|].
  destruct (length (strip (rstrip raw)) =? 0); [eauto|].
  destruct (HEADING_RE (rstrip raw)) as [[g1 g2]|]; [eauto|].
  destruct (matches (UL_ITEM_RE (rstrip raw)) || matches (OL_ITEM_RE (rstrip raw)))
    eqn:LI.
  { destruct (list_branch_advances raw rest (html_lines st) LI)
      as (a & b & c & E & L).
    rewrite E. eauto. }
  destruct (TABLE_ROW_RE (rstrip raw)).
  { destruct (span_lines TABLE_ROW_RE rest) as [more lines'] eqn:E.
    apply span_lines_length in E. simpl. eauto. }
  destruct (matches (BLOCKQUOTE_RE (rstrip raw))) eqn:BQ.
  { simpl. unfold bq_line at 1. rewrite BQ.
    destruct (span_lines bq_line rest) as [more lines'] eqn:E.
    apply span_lines_length in E. eauto. }
  destruct (HR_RE (rstrip raw)); [eauto|].
  destruct (span_lines para_continues rest) as [more lines'] eqn:E.
  apply span_lines_length in E. eauto.
Qed.

Lemma loop_total :
  forall fuel lines st, length lines <= fuel ->
    exists st', loop fuel lines st = Some st'.
Proof.
  induction fuel as [|fuel IH]; intros lines st L.
  - destruct lines; [simpl; eauto | simpl in L; lia].
  - destruct lines as [|raw rest]; [simpl; eauto|].
    simpl. destruct (step_advances raw rest st) as (lines' & st' & E & L').
    rewrite E. apply IH. simpl in L. lia.
Qed.

(** ** What the first characters of a line decide *)

Lemma eqc_true (a c : char) : eqc a c = true -> c = a.
Proof. unfold eqc. apply N.eqb_eq. Qed.

Lemma lead_rstrip (l : str) : lead (rstrip l) = lead l.
Proof.
  unfold lead, rstrip, lstrip.
  induction l as [|c l IH]; cbn [rstrip_by lstrip_by]; [reflexivity|].
  destruct (isspace c) eqn:Sc.
  - destruct (rstrip_by isspace l) as [|d r] eqn:R.
    + exact IH.
    + cbn [lstrip_by]. rewrite Sc. exact IH.
  - destruct (rstrip_by isspace l) as [|d r] eqn:R; cbn [lstrip_by];
      rewrite Sc; reflexivity.
Qed.

Lemma hd_rstrip (l : str) (c : char) :
  hd_error (rstrip l) = Some c -> hd_error l = Some c.
Proof.
  unfold rstrip. destruct l as [|a l]; simpl; [auto|].
  destruct (rstrip_by isspace l); [destruct (isspace a)|]; simpl; auto.
  discriminate.
Qed.

Lemma hd_lead (s : str) (c : char) :
  hd_error s = Some c -> isspace c = false -> lead s = Some c.
Proof.
  unfold lead, lstrip. destruct s as [|a s]; simpl; [discriminate|].
  intros H Sc. inversion H; subst. rewrite Sc. reflexivity.
Qed.

Lemma strip_prefix_app (pre : str) :
  forall s t, strip_prefix pre s = Some t -> s = pre ++ t.
Proof.
  induction pre as [|a pre IH]; simpl; intros s t H.
  - inversion H. reflexivity.
  - destruct s as [|b s]; [discriminate|].
    destruct (N.eqb_spec a b); [|discriminate]. subst. f_equal. auto.
Qed.

Lemma strip_prefix_refl (pre t : str) : strip_prefix pre (pre ++ t) = Some t.
Proof.
  induction pre as [|a pre IH]; simpl; [reflexivity|].
  rewrite N.eqb_refl. exact IH.
Qed.

Lemma FENCE_lead (s g : str) : FENCE_RE s = Some g -> lead s = Some BQUOTE.
Proof.
  unfold FENCE_RE, lead. intros H.
  destruct (strip_prefix [BQUOTE; BQUOTE; BQUOTE] (lstrip s)) as [t|] eqn:E;
    [|discriminate].
  apply strip_prefix_app in E. rewrite E. reflexivity.
Qed.

Lemma HEADING_hd (s : str) :
  matches (HEADING_RE s) = true <-> hd_error s = Some HASH.
Proof.
  unfold HEADING_RE. destruct s as [|c s]; simpl.
  - split; discriminate.
  - destruct (eqc HASH c) eqn:E.
    + apply eqc_true in E. subst. destruct (span (eqc HASH) s). simpl.
      split; reflexivity.
    + simpl. split; [discriminate|]. intros H. inversion H; subst.
      discriminate.
Qed.

Lemma UL_lead (s : str) :
  matches (UL_ITEM_RE s) = true ->
  exists c, lead s = Some c /\ (c = DASH \/ c = PLUS \/ c = STAR).
Proof.
  unfold UL_ITEM_RE, lead. destruct (lstrip s) as [|c s1]; [discriminate|].
  intros H. exists c. split; [reflexivity|].
  destruct (eqc DASH c) eqn:E1; [left; apply eqc_true; exact E1|].
  destruct (eqc PLUS c) eqn:E2; [right; left; apply eqc_true; exact E2|].
  destruct (eqc STAR c) eqn:E3; [right; right; apply eqc_true; exact E3|].
  discriminate.
Qed.

Lemma OL_lead (s : str) :
  matches (OL_ITEM_RE s) = true ->
  exists c, lead s = Some c /\ isdecimal c = true.
Proof.
  unfold OL_ITEM_RE, lead. destruct (lstrip s) as [|c s1]; [discriminate|].
  simpl. destruct (isdecimal c) eqn:D; [|discriminate].
  intros _. exists c. auto.
Qed.

Lemma TABLE_lead (s : str) : TABLE_ROW_RE s = true -> lead s = Some PIPE.
Proof.
  unfold TABLE_ROW_RE, lead. destruct (lstrip s) as [|c body]; [discriminate|].
  intros H. apply andb_true_iff in H. destruct H as [H _].
  apply eqc_true in H. subst. reflexivity.
Qed.

Lemma BQ_hd (s : str) :
  matches (BLOCKQUOTE_RE s) = true -> hd_error s = Some GT.
Proof.
  unfold BLOCKQUOTE_RE. destruct s as [|c s]; [discriminate|].
  destruct (eqc GT c) eqn:E; [|discriminate].
  apply eqc_true in E. subst. reflexivity.
Qed.

Lemma neutral_of_lead (l : str) (c : char) :
  lead l = Some c -> c <> BQUOTE -> c <> HASH -> neutral l = true.
Proof.
  intros L N1 N2. unfold neutral. apply andb_true_iff. split.
  - destruct (FENCE_RE (rstrip l)) as [g|] eqn:F; [|reflexivity].
    apply FENCE_lead in F. rewrite lead_rstrip in F. congruence.
  - destruct (matches (HEADING_RE (rstrip l))) eqn:H; [|reflexivity].
    apply HEADING_hd in H. apply hd_rstrip in H.
    apply hd_lead in H; [|reflexivity]. congruence.
Qed.

Lemma list_item_neutral (l : str) :
  matches (UL_ITEM_RE l) || matches (OL_ITEM_RE l) = true -> neutral l = true.
Proof.
  intros H. apply orb_true_iff in H. destruct H as [H|H].
  - apply UL_lead in H. destruct H as (c & L & [E|[E|E]]); subst;
      apply (neutral_of_lead _ L); discriminate.
  - apply OL_lead in H. destruct H as (c & L & D).
    apply (neutral_of_lead _ L); intros ->; vm_compute in D; discriminate.
Qed.

Lemma table_row_neutral (l : str) : TABLE_ROW_RE l = true -> neutral l = true.
Proof.
  intros H. apply TABLE_lead in H. apply (neutral_of_lead _ H); discriminate.
Qed.

Lemma bq_line_neutral (l : str) : bq_line l = true -> neutral l = true.
Proof.
  unfold bq_line. intros H. apply BQ_hd in H. apply hd_rstrip in H.
  apply hd_lead in H; [|reflexivity].
  apply (neutral_of_lead _ H); discriminate.
Qed.

Lemma span_all (p : char -> bool) (s : str) :
  forallb p s = true -> span p s = (s, []).
Proof.
  induction s as [|c s IH]; simpl; [reflexivity|].
  intros H. apply andb_true_iff in H. destruct H as [H1 H2].
  rewrite H1, (IH H2). reflexivity.
Qed.

Lemma forallb_lstrip_by (p q : char -> bool) (s : str) :
  forallb p s = true -> forallb p (lstrip_by q s) = true.
Proof.
  induction s as [|c s IH]; simpl; [auto|].
  intros H. destruct (q c); [|exact H].
  apply andb_true_iff in H. apply IH, H.
Qed.

Lemma FENCE_rstrip_inv (l : str) :
  no_nl l -> matches (FENCE_RE (rstrip l)) = true ->
  matches (FENCE_RE l) = true.
Proof.
  unfold no_nl. intros NN H.
  destruct (rstrip_by_app isspace l) as [w [E _]]. fold (rstrip l) in E.
  unfold FENCE_RE in *.
  destruct (strip_prefix [BQUOTE; BQUOTE; BQUOTE] (lstrip (rstrip l)))
    as [t|] eqn:P; [|discriminate].
  apply strip_prefix_app in P.
  assert (L : lstrip l = [BQUOTE; BQUOTE; BQUOTE] ++ (t ++ w)).
  { rewrite E at 1. unfold lstrip in *. rewrite lstrip_by_app.
    - rewrite P. rewrite <- app_assoc. reflexivity.
    - rewrite P. discriminate. }
  rewrite L, strip_prefix_refl.
  assert (A : forallb (neqc NL) (t ++ w) = true).
  { pose proof (forallb_lstrip_by (neqc NL) isspace l NN) as Q.
    fold (lstrip l) in Q. rewrite L in Q. simpl in Q. exact Q. }
  unfold dot_star. rewrite (span_all _ _ A). reflexivity.
Qed.

Lemma para_line_neutral (l : str) :
  no_nl l -> para_continues l = true -> neutral l = true.
Proof.
  unfold para_continues, neutral. intros NN H.
  repeat (apply andb_true_iff in H; destruct H as [H ?]).
  apply andb_true_iff. split; apply negb_true_iff.
  - destruct (matches (FENCE_RE (rstrip l))) eqn:F; [|reflexivity].
    apply (FENCE_rstrip_inv NN) in F. rewrite F in *. discriminate.
  - destruct (matches (HEADING_RE (rstrip l))) eqn:G; [|reflexivity].
    apply HEADING_hd in G. apply hd_rstrip in G. apply HEADING_hd in G.
    rewrite G in *. discriminate.
Qed.

(** The lines [splitlines] gives hold no line feed. *)
Lemma linebreak_not_kept (c : char) :
  is_linebreak c = false -> neqc NL c = true.
Proof.
  unfold neqc. destruct (N.eqb_spec c NL) as [->|]; [|reflexivity].
  vm_compute. discriminate.
Qed.

Lemma splitlines_from_no_nl :
  forall n s cur, length s <= n -> no_nl cur ->
    Forall no_nl (splitlines_from cur s).
Proof.
  unfold no_nl.
  assert (R : forall cur, forallb (neqc NL) cur = true ->
                          forallb (neqc NL) (rev cur) = true).
  { intros cur H. rewrite forallb_forall in *. intros x Hx.
    apply H. apply in_rev. exact Hx. }
  induction n as [|n IH]; intros s cur L NN.
  - destruct s; [|simpl in L; lia]. simpl.
    destruct cur; [constructor | constructor; [apply R; exact NN | constructor]].
  - destruct s as [|c s]; simpl.
    { destruct cur; [constructor | constructor; [apply R; exact NN | constructor]]. }
    simpl in L. destruct (eqc CR c).
    + destruct s as [|d s2].
      * constructor; [apply R; exact NN | apply IH; simpl; [lia | reflexivity]].
      * simpl in L. destruct (eqc NL d);
          (constructor; [apply R; exact NN | apply IH; simpl; [lia | reflexivity]]).
    + destruct (is_linebreak c) eqn:B.
      * constructor; [apply R; exact NN | apply IH; [lia | reflexivity]].
      * apply IH; [lia|]. simpl. rewrite (linebreak_not_kept _ B). exact NN.
Qed.

Lemma splitlines_no_nl (md : str) : Forall no_nl (splitlines md).
Proof.
  apply (@splitlines_from_no_nl (length md)); [lia | reflexivity].
Qed.

(** ** The title *)

Lemma list_loop_consumed :
  forall lines stack h lines' stack' h',
    list_loop lines stack h = Some (lines', stack', h') ->
    exists consumed,
      lines = consumed ++ lines'
      /\ Forall (fun l => list_item l = true) consumed.
Proof.
  induction lines as [|l rest IH]; intros stack h lines' stack' h' H;
    simpl in H.
  - inversion H. exists []. auto.
  - destruct (matches (UL_ITEM_RE l) || matches (OL_ITEM_RE l)) eqn:LI;
      simpl in H.
    2:{ inversion H. exists []. auto. }
    assert (K : forall s0 h0,
               list_loop rest s0 h0 = Some (lines', stack', h') ->
               exists consumed,
                 l :: rest = consumed ++ lines'
                 /\ Forall (fun l => list_item l = true) consumed).
    { intros s0 h0 E. destruct (IH _ _ _ _ _ E) as (c & E1 & F1).
      exists (l :: c). split; [simpl; f_equal; exact E1|].
      constructor; [exact LI | exact F1]. }
    destruct (_list_match l) as [[[lt indent] content]|].
    2:{ inversion H. exists []. auto. }
    destruct stack as [|[top_indent top_type] stack0]; [eapply K; eauto|].
    destruct (top_indent <? indent).
    + destruct (last_line h); [eapply K; eauto | discriminate].
    + destruct (indent =? top_indent); [eapply K; eauto|].
      destruct (pop_deeper indent ((top_indent, top_type) :: stack0)
                  (close_inline_li h)).
      eapply K; eauto.
Qed.

Lemma first_title_skip (consumed rest : list str) :
  Forall (fun l => neutral l = true) consumed ->
  first_title false (consumed ++ rest) = first_title false rest.
Proof.
  induction 1 as [|l consumed N _ IH]; simpl; [reflexivity|].
  unfold neutral in N. apply andb_true_iff in N. destruct N as [N1 N2].
  apply negb_true_iff in N1. apply negb_true_iff in N2.
  rewrite N1. unfold heading_text.
  destruct (HEADING_RE (rstrip l)) as [[g1 g2]|]; [discriminate | exact IH].
Qed.

Lemma Forall_app_r {A : Type} (P : A -> Prop) (a b : list A) :
  Forall P (a ++ b) -> Forall P b.
Proof. intros H. apply Forall_app in H. apply H. Qed.

Lemma Forall_app_l {A : Type} (P : A -> Prop) (a b : list A) :
  Forall P (a ++ b) -> Forall P a.
Proof. intros H. apply Forall_app in H. apply H. Qed.

Ltac step_cases raw st H :=
  unfold step in H;
  destruct (FENCE_RE (rstrip raw)) as [?g1|] eqn:Ffence;
  [ destruct (inside_code st) eqn:Fin
  | destruct (inside_code st) eqn:Fin;
    [| destruct (length (strip (rstrip raw)) =? 0) eqn:Fblank;
       [| destruct (HEADING_RE (rstrip raw)) as [[?g1 ?g2]|] eqn:Fhead;
          [| destruct (matches (UL_ITEM_RE (rstrip raw))
                       || matches (OL_ITEM_RE (rstrip raw))) eqn:Flist;
             [| destruct (TABLE_ROW_RE (rstrip raw)) eqn:Ftab;
                [| destruct (matches (BLOCKQUOTE_RE (rstrip raw))) eqn:Fbq;
                   [| destruct (HR_RE (rstrip raw)) eqn:Fhr ]]]]]]];
  cbn [negb] in H.

Lemma blank_not_heading (s : str) :
  (length (strip s) =? 0) = true -> HEADING_RE s = None.
Proof.
  intros B. destruct (HEADING_RE s) eqn:E; [|reflexivity]. exfalso.
  assert (M : matches (HEADING_RE s) = true) by (rewrite E; reflexivity).
  apply HEADING_hd in M. destruct s as [|c s]; [discriminate|].
  inversion M; subst. apply Nat.eqb_eq in B.
  unfold strip, strip_by in B. simpl in B.
  destruct (rstrip_by isspace s); discriminate.
Qed.

Lemma step_title (raw : str) (rest lines' : list str) (st st' : state) :
  Forall no_nl (raw :: rest) ->
  step raw rest st = Some (lines', st') ->
  title_ahead st (raw :: rest) = title_ahead st' lines'
  /\ Forall no_nl lines'.
Proof.
  intros NN H. pose proof (Forall_inv_tail NN) as NNr.
  unfold title_ahead.
  step_cases raw st H.
  - (* closing fence *)
    inversion H; subst; clear H. split; [|exact NNr].
    cbn [title inside_code append_html set_html_lines close_fence first_title].
    rewrite Ffence. reflexivity.
  - (* opening fence *)
    inversion H; subst; clear H. split; [|exact NNr].
    cbn [title inside_code open_fence first_title].
    rewrite Ffence. reflexivity.
  - (* a line of code *)
    inversion H; subst; clear H. split; [|exact NNr].
    cbn [title inside_code append_code first_title]. rewrite Ffence, Fin.
    reflexivity.
  - (* blank line *)
    inversion H; subst; clear H. split; [|exact NNr].
    rewrite Fin. cbn [first_title]. rewrite Ffence. unfold heading_text.
    rewrite (blank_not_heading _ Fblank). reflexivity.
  - (* heading *)
    inversion H; subst; clear H. split; [|exact NNr].
    cbn [first_title]. rewrite Ffence. unfold heading_text. rewrite Fhead.
    destruct (truthy (title st)) eqn:Tr; cbn [negb].
    + cbn [title inside_code append_html set_html_lines]. rewrite Tr.
      reflexivity.
    + cbn [title inside_code append_html set_html_lines set_title].
      rewrite Fin. destruct (strip g2) as [|c t]; reflexivity.
  - (* list *)
    destruct (list_loop (raw :: rest) [] (html_lines st))
      as [[[l2 stack] h2]|] eqn:LL; [|discriminate].
    inversion H; subst; clear H.
    destruct (list_loop_consumed _ _ _ LL) as (consumed & E & F).
    split; [|rewrite E in NN; exact (Forall_app_r _ _ NN)].
    cbn [title inside_code set_html_lines]. rewrite Fin, E.
    rewrite first_title_skip; [reflexivity|].
    eapply Forall_impl; [|exact F]. intros a Ha.
    apply list_item_neutral. exact Ha.
  - (* table *)
    destruct (span_lines TABLE_ROW_RE rest) as [more l2] eqn:SP.
    destruct (parse_table (rstrip raw :: more)); [|discriminate].
    inversion H; subst; clear H.
    destruct (span_lines_app _ _ SP) as [E F].
    split; [|rewrite E in NNr; exact (Forall_app_r _ _ NNr)].
    cbn [title inside_code append_html set_html_lines]. rewrite Fin.
    cbn [first_title]. rewrite Ffence. unfold heading_text. rewrite Fhead.
    rewrite E. rewrite first_title_skip; [reflexivity|].
    eapply Forall_impl; [|exact F]. intros a Ha.
    apply table_row_neutral. exact Ha.
  - (* blockquote *)
    destruct (span_lines bq_line (raw :: rest)) as [quoted l2] eqn:SP.
    inversion H; subst; clear H.
    destruct (span_lines_app _ _ SP) as [E F].
    split; [|rewrite E in NN; exact (Forall_app_r _ _ NN)].
    cbn [title inside_code append_html set_html_lines]. rewrite Fin, E.
    rewrite first_title_skip; [reflexivity|].
    eapply Forall_impl; [|exact F]. intros a Ha.
    apply bq_line_neutral. exact Ha.
  - (* horizontal rule *)
    inversion H; subst; clear H. split; [|exact NNr].
    cbn [title inside_code append_html set_html_lines]. rewrite Fin.
    cbn [first_title]. rewrite Ffence. unfold heading_text. rewrite Fhead.
    reflexivity.
  - (* paragraph *)
    destruct (span_lines para_continues rest) as [more l2] eqn:SP.
    destruct (negb (truthy (meta_desc st))); inversion H; subst; clear H;
      destruct (span_lines_app _ _ SP) as [E F];
      (split; [|rewrite E in NNr; exact (Forall_app_r _ _ NNr)]);
      cbn [title inside_code append_html set_html_lines set_meta_desc];
      rewrite Fin; cbn [first_title]; rewrite Ffence; unfold heading_text;
      rewrite Fhead; rewrite E; (rewrite first_title_skip; [reflexivity|]);
      rewrite E in NNr; apply Forall_app_l in NNr; clear - F NNr;
      (induction F as [|a more Ha _ IH]; constructor;
       [ apply para_line_neutral; [exact (Forall_inv NNr) | exact Ha]
       | apply IH; exact (Forall_inv_tail NNr) ]).
Qed.

Lemma loop_title :
  forall fuel lines st st',
    Forall no_nl lines -> loop fuel lines st = Some st' ->
    p_title (finish st') = title_ahead st lines.
Proof.
  induction fuel as [|fuel IH]; intros lines st st' NN H.
  - destruct lines; [|discriminate]. inversion H; subst.
    unfold finish, title_ahead. cbn [p_title first_title].
    destruct (title st') as [[|c t]|]; reflexivity.
  - destruct lines as [|raw rest].
    + inversion H; subst. unfold finish, title_ahead. cbn [p_title first_title].
      destruct (title st') as [[|c t]|]; reflexivity.
    + simpl in H. destruct (step raw rest st) as [[l2 st2]|] eqn:S;
        [|discriminate].
      destruct (step_title _ NN S) as [E NN2].
      rewrite E. apply IH; assumption.
Qed.

Lemma first_title_in (lines : list str) :
  forall inside t, first_title inside lines = Some t ->
    t <> [] /\ exists l, In l lines /\ heading_text l = Some t.
Proof.
  induction lines as [|raw rest IH]; intros inside t H; simpl in H.
  - discriminate.
  - assert (K : forall i, first_title i rest = Some t ->
                 t <> [] /\ exists l, In l (raw :: rest)
                                      /\ heading_text l = Some t).
    { intros i E. destruct (IH _ _ E) as [N (l & I & G)].
      split; [exact N|]. exists l. split; [right; exact I | exact G]. }
    destruct (matches (FENCE_RE (rstrip raw))); [eapply K; eauto|].
    destruct inside; [eapply K; eauto|].
    destruct (heading_text raw) as [[|c u]|] eqn:G.
    + eapply K; eauto.
    + inversion H; subst. split; [discriminate|].
      exists raw. split; [left; reflexivity | exact G].
    + eapply K; eauto.
Qed.

(** The title of every document, by the one-pass reading of its lines. *)
Lemma md_to_html_title (md : str) :
  exists r, md_to_html md = Some r
            /\ p_title r = or_else (first_title false (splitlines md))
                             default_title.
Proof.
  unfold md_to_html.
  destruct (@loop_total (length (splitlines md)) (splitlines md) init_state
              (le_n _)) as [st E].
  rewrite E. eexists. split; [reflexivity|].
  rewrite (@loop_title _ _ _ _ (splitlines_no_nl md) E). reflexivity.
Qed.

(** The first heading line and the first heading line with a text. *)
Lemma first_heading_none (lines : list str) :
  forall inside, first_heading inside lines = None ->
                 first_title inside lines = None.
Proof.
  induction lines as [|raw rest IH]; intros inside H; [reflexivity|].
  cbn [first_heading first_title] in *.
  destruct (matches (FENCE_RE (rstrip raw))); [apply IH; exact H|].
  destruct inside; [apply IH; exact H|].
  destruct (heading_text raw) as [t|]; [discriminate|]. apply IH; exact H.
Qed.

Lemma first_heading_text (lines : list str) :
  forall inside t, first_heading inside lines = Some t -> t <> [] ->
                   first_title inside lines = Some t.
Proof.
  induction lines as [|raw rest IH]; intros inside t H N; [discriminate|].
  cbn [first_heading first_title] in *.
  destruct (matches (FENCE_RE (rstrip raw))); [apply IH; assumption|].
  destruct inside; [apply IH; assumption|].
  destruct (heading_text raw) as [u|]; [|apply IH; assumption].
  inversion H; subst. destruct t; [congruence | reflexivity].
Qed.

(** C1, as stated, fails in its clause on the title: the first heading
    line of the document below has an empty text, and the title is neither
    that text nor the fallback but the text of a later heading. *)
Lemma first_heading_not_title :
  first_heading false
    (splitlines (py "##" ++ [NL] ++ py "text" ++ [NL] ++ py "### Second"))
  = Some []
  /\ option_map p_title
       (md_to_html (py "##" ++ [NL] ++ py "text" ++ [NL] ++ py "### Second"))
     = Some (py "Second")
  /\ py "Second" <> default_title.
Proof. repeat split; try (vm_compute; reflexivity). discriminate. Qed.

(** C1, amended.  For every input string [md_to_html] returns: the main
    loop neither raises nor runs for ever.  The title of the result is never
    empty: it is the trimmed text of the first heading line outside fenced
    code whose text is not empty, and the fallback ["Lesson"] when there is
    no such line.  So it is the text of the first heading line whenever that
    text is not empty, and the fallback when no line is a heading; the body
    is a string by construction. *)
Theorem md_to_html_total (md : str) :
  exists r, md_to_html md = Some r
            /\ p_title r <> []
            /\ p_title r = match first_title false (splitlines md) with
                           | Some t => t
                           | None => default_title
                           end
            /\ (forall t, first_heading false (splitlines md) = Some t ->
                          t <> [] -> p_title r = t)
            /\ (first_heading false (splitlines md) = None ->
                p_title r = default_title).
Proof.
  destruct (md_to_html_title md) as (r & E & T). exists r.
  split; [exact E|]. rewrite T.
  split; [|split; [|split]].
  - destruct (first_title false (splitlines md)) as [[|c t]|];
      cbn [or_else]; discriminate.
  - destruct (first_title false (splitlines md)) as [t|] eqn:F;
      [|reflexivity].
    destruct (first_title_in _ _ F) as [N _].
    destruct t; [congruence | reflexivity].
  - intros t H N. rewrite (first_heading_text _ _ H N).
    destruct t; [congruence | reflexivity].
  - intros H. rewrite (first_heading_none _ _ H). reflexivity.
Qed.

(** C5, as stated, fails: in the document of the two lines ["#"] and
    ["# B"] the first heading line has an empty text, and the title is
    ["B"], the text of the second heading; for the document ["#"] the title
    is the fallback although the input has a heading line. *)
Lemma title_claim_counterexample :
  first_heading false (splitlines (py "#" ++ [NL] ++ py "# B")) = Some []
  /\ option_map p_title (md_to_html (py "#" ++ [NL] ++ py "# B"))
     = Some (py "B")
  /\ first_heading false (splitlines (py "#")) = Some []
  /\ option_map p_title (md_to_html (py "#")) = Some default_title.
Proof. repeat split; vm_compute; reflexivity. Qed.

(** C5, amended.  The title is the trimmed raw text of the first heading
    line outside fenced code whose text is not empty; later headings do not
    change it; it is the fallback when there is no such line. *)
Theorem title_from_first_nonempty_heading (md : str) :
  exists r, md_to_html md = Some r
            /\ p_title r = match first_title false (splitlines md) with
                           | Some t => t
                           | None => default_title
                           end.
Proof.
  destruct (md_to_html_title md) as (r & E & T). exists r.
  split; [exact E|]. rewrite T.
  destruct (first_title false (splitlines md)) as [t|] eqn:F;
    [|reflexivity].
  destruct (first_title_in _ _ F) as [N _].
  destruct t; [congruence | reflexivity].
Qed.

(** C7.  The bold pass runs before the italic pass: the asterisks of the
    bold span are gone when the italic pattern is tried. *)
Theorem bold_before_italic :
  escape_html (py "**a** *b*") = py "**a** *b*"
  /\ sub_bold (py "**a** *b*") = py "<strong>a</strong> *b*"
  /\ inline_parse (escape_html (py "**a** *b*"))
     = py "<strong>a</strong> <em>b</em>".
Proof. repeat split; vm_compute; reflexivity. Qed.

(** ** Escaping twice *)

Lemma escape_char_plain (c : char) : special c = false -> escape_char c = [c].
Proof.
  unfold special, escape_char. intros H.
  apply orb_false_iff in H. destruct H as [H H3].
  apply orb_false_iff in H. destruct H as [H1 H2].
  rewrite H1, H2, H3. reflexivity.
Qed.

Lemma escape_char_special (c : char) :
  special c = true -> exists d t, escape_char c = AMP :: d :: t.
Proof.
  unfold special, escape_char. intros H.
  destruct (eqc AMP c); [eexists _, _; reflexivity|].
  destruct (eqc LT c); [eexists _, _; reflexivity|].
  destruct (eqc GT c); [eexists _, _; reflexivity | discriminate].
Qed.

Lemma escape_html_plain (s : str) :
  existsb special s = false -> escape_html s = s.
Proof.
  induction s as [|c s IH]; simpl; [reflexivity|].
  intros H. apply orb_false_iff in H. destruct H as [H1 H2].
  rewrite (escape_char_plain _ H1), (IH H2). reflexivity.
Qed.

Lemma escape_html_length (s : str) : length s <= length (escape_html s).
Proof.
  induction s as [|c s IH]; simpl; [lia|].
  rewrite length_app. destruct (special c) eqn:S.
  - destruct (escape_char_special _ S) as (d & t & E). rewrite E. simpl. lia.
  - rewrite (escape_char_plain _ S). simpl. lia.
Qed.

Lemma escape_html_longer (s : str) :
  existsb special s = true -> length s < length (escape_html s).
Proof.
  induction s as [|c s IH]; simpl; [discriminate|].
  rewrite length_app. pose proof (escape_html_length s) as L.
  destruct (special c) eqn:S; simpl.
  - intros _. destruct (escape_char_special _ S) as (d & t & E). rewrite E.
    simpl. lia.
  - intros H. specialize (IH H). rewrite (escape_char_plain _ S). simpl. lia.
Qed.

Lemma escape_html_keeps_special (s : str) :
  existsb special s = true -> existsb special (escape_html s) = true.
Proof.
  induction s as [|c s IH]; simpl; [discriminate|].
  rewrite existsb_app. destruct (special c) eqn:S; simpl.
  - intros _. destruct (escape_char_special _ S) as (d & t & E). rewrite E.
    reflexivity.
  - intros H. rewrite (IH H). apply orb_true_r.
Qed.

(** C9, as stated, fails: escaping an ampersand twice is not escaping it
    once. *)
Lemma escape_html_not_idempotent :
  escape_html (escape_html (py "&")) = py "&amp;amp;"
  /\ escape_html (py "&") = py "&amp;"
  /\ escape_html (escape_html (py "&")) <> escape_html (py "&").
Proof.
  split; [vm_compute; reflexivity|].
  split; [vm_compute; reflexivity|].
  vm_compute. discriminate.
Qed.

(** C9, amended.  [escape_html] and [inline_parse] are functions of their
    argument; escaping a second time changes nothing exactly when the text
    holds none of the three characters ["&"], ["<"], [">"]. *)
Theorem escape_html_twice (s : str) :
  escape_html (escape_html s) = escape_html s <-> existsb special s = false.
Proof.
  split.
  - intros E. destruct (existsb special s) eqn:X; [|reflexivity].
    apply escape_html_keeps_special in X. apply escape_html_longer in X.
    rewrite E in X. lia.
  - intros X. rewrite (escape_html_plain _ X). apply escape_html_plain, X.
Qed.

(** ** Tables *)


Lemma span_lines_run (p : str -> bool) (run rest : list str) :
  forallb p run = true -> ends_run p rest = true ->
  span_lines p (run ++ rest) = (run, rest).
Proof.
  intros F E. induction run as [|l run IH]; simpl in *.
  - destruct rest as [|l rest]; [reflexivity|]. simpl in *.
    apply negb_true_iff in E. rewrite E. reflexivity.
  - apply andb_true_iff in F. destruct F as [F1 F2].
    rewrite F1, (IH F2). reflexivity.
Qed.


(** C2.  The table branch gives the cells to the output as they are: the
    text of a cell reaches the body with its ["<"] and [">"], where the
    paragraph branch escapes the same text. *)
Theorem table_cell_not_escaped :
  option_map p_body (md_to_html (py "|<script>|"))
  = Some (py "<table>" ++ [NL]
          ++ py "<thead><tr><th><script></th></tr></thead>" ++ [NL]
          ++ py "<tbody></tbody></table>")
  /\ option_map p_body (md_to_html (py "<script>"))
     = Some (py "<p>&lt;script&gt;</p>").
Proof. split; vm_compute; reflexivity. Qed.

(** C3.  A sub-item indented by two spaces under a dash item opens a nested
    list inside the parent item, and at the end of the input both lists are
    closed but the parent item is not: two ["<li>"] for one ["</li>"].
    When another item follows the nested list, the dedent path closes the
    parent item. *)
Theorem nested_list_parent_item_left_open :
  option_map p_body (md_to_html (py "- a" ++ [NL] ++ py "  - b"))
  = Some (py "<ul>" ++ [NL] ++ py "<li>a<ul>" ++ [NL] ++ py "<li>b</li>"
          ++ [NL] ++ py "</ul>" ++ [NL] ++ py "</ul>")
  /\ option_map (fun r => (count_sub (py "<li>") (p_body r),
                           count_sub (py "</li>") (p_body r),
                           count_sub (py "<ul>") (p_body r),
                           count_sub (py "</ul>") (p_body r)))
       (md_to_html (py "- a" ++ [NL] ++ py "  - b"))
     = Some (2, 1, 2, 2)
  /\ option_map p_body
       (md_to_html (py "- a" ++ [NL] ++ py "  - b" ++ [NL] ++ py "- c"))
     = Some (py "<ul>" ++ [NL] ++ py "<li>a<ul>" ++ [NL] ++ py "<li>b</li>"
             ++ [NL] ++ py "</ul></li>" ++ [NL] ++ py "<li>c</li>" ++ [NL]
             ++ py "</ul>").
Proof. repeat split; vm_compute; reflexivity. Qed.


(** Table lines that the main loop does not start an iteration on are no
    table: after a paragraph line they are paragraph text, and between two
    fences they are code. *)
Example table_lines_elsewhere :
  option_map p_body
    (md_to_html (py "text" ++ [NL] ++ py "| A |" ++ [NL] ++ py "| 1 |"))
  = Some (py "<p>text | A | | 1 |</p>")
  /\ option_map p_body
       (md_to_html (py "```" ++ [NL] ++ py "| A |" ++ [NL] ++ py "| 1 |"
                    ++ [NL] ++ py "```"))
     = Some (py "<pre><code>| A |" ++ [NL] ++ py "| 1 |" ++ [NL]
             ++ py "</code></pre>").
Proof. split; vm_compute; reflexivity. Qed.



(** ** Runs of the main loop *)

Lemma steps_loop :
  forall n fuel lines st lines' st' r,
    steps n lines st = Some (lines', st') ->
    loop fuel lines st = Some r ->
    exists fuel', loop fuel' lines' st' = Some r.
Proof.
  induction n as [|n IH]; intros fuel lines st lines' st' r S L; simpl in S.
  - inversion S; subst. eauto.
  - destruct lines as [|raw rest].
    + inversion S; subst. eauto.
    + destruct fuel as [|fuel]; [discriminate|]. simpl in L.
      destruct (step raw rest st) as [[l2 s2]|]; [|discriminate].
      eapply IH; eauto.
Qed.

(** The result of a document, from any iteration its run goes through. *)
Lemma md_to_html_from (n : nat) (md : str) (lines' : list str) (st' : state) :
  steps n (splitlines md) init_state = Some (lines', st') ->
  exists fuel r, loop fuel lines' st' = Some r
                 /\ md_to_html md = Some (finish r).
Proof.
  intros S. unfold md_to_html.
  destruct (@loop_total (length (splitlines md)) (splitlines md) init_state
              (le_n _)) as [r E].
  destruct (@steps_loop _ _ _ _ _ _ _ S E) as [fuel L].
  exists fuel, r. rewrite E. auto.
Qed.

Lemma loop_in_code :
  forall fuel code st r,
    inside_code st = true -> forallb not_fence code = true ->
    loop fuel code st = Some r ->
    html_lines r = html_lines st /\ title r = title st
    /\ meta_desc r = meta_desc st.
Proof.
  induction fuel as [|fuel IH]; intros code st r IC NF L.
  - destruct code; [|discriminate]. inversion L; subst. auto.
  - destruct code as [|raw rest].
    + inversion L; subst. auto.
    + simpl in NF. apply andb_true_iff in NF. destruct NF as [N1 N2].
      unfold not_fence in N1. apply negb_true_iff in N1.
      simpl in L. unfold step in L.
      destruct (FENCE_RE (rstrip raw)); [discriminate|].
      rewrite IC in L.
      apply (IH rest (append_code raw st) r IC N2) in L. exact L.
Qed.

(** C8.  When the main loop meets a fence marker outside fenced code and no
    later line closes it, the conversion returns, and what it returns is
    made of the state at the marker alone: the body is the fragments
    assembled before the fence, title and description are those found
    before it; the lines after the marker add no fragment. *)
Theorem unclosed_fence_discarded
  (n : nat) (md f : str) (code : list str) (st : state) :
  steps n (splitlines md) init_state = Some (f :: code, st) ->
  inside_code st = false ->
  matches (FENCE_RE (rstrip f)) = true ->
  forallb not_fence code = true ->
  md_to_html md = Some (finish st)
  /\ p_body (finish st) = join [NL] (html_lines st).
Proof.
  intros S IC F NF. split; [|reflexivity].
  destruct (@md_to_html_from _ _ _ _ S) as (fuel & r & L & E). rewrite E.
  destruct fuel as [|fuel]; [discriminate|]. simpl in L. unfold step in L.
  destruct (FENCE_RE (rstrip f)) as [g1|]; [|discriminate].
  rewrite IC in L. cbn [negb] in L.
  apply loop_in_code in L; [|reflexivity | exact NF].
  destruct L as (H1 & H2 & H3). unfold finish. rewrite H1, H2, H3.
  reflexivity.
Qed.

Lemma unclosed_fence_discarded_witness :
  md_to_html (py "para" ++ [NL] ++ py "```py" ++ [NL] ++ py "x < 1")
  = Some (finish (mkState [py "<p>para</p>"] None (Some (py "para")) false
                    [] []))
  /\ p_body (finish (mkState [py "<p>para</p>"] None (Some (py "para"))
                       false [] []))
     = join [NL] [py "<p>para</p>"].
Proof.
  apply (@unclosed_fence_discarded 1
           (py "para" ++ [NL] ++ py "```py" ++ [NL] ++ py "x < 1")
           (py "```py") [py "x < 1"]
           (mkState [py "<p>para</p>"] None (Some (py "para")) false [] []));
    vm_compute; reflexivity.
Defined.

(** ** Plain text through the inline passes *)

Lemma neqc_eqc (k c : char) : neqc k c = true -> eqc k c = false.
Proof. unfold neqc, eqc. apply negb_true_iff. Qed.

Lemma forallb_weaken (p q : char -> bool) (s : str) :
  (forall c, p c = true -> q c = true) ->
  forallb p s = true -> forallb q s = true.
Proof.
  intros I. induction s as [|c s IH]; simpl; [auto|].
  intros H. apply andb_true_iff in H. destruct H as [H1 H2].
  rewrite (I _ H1), (IH H2). reflexivity.
Qed.

Lemma re_sub_id_all (m : str -> option (str * str)) (k : char) :
  (forall s, forallb (neqc k) s = true -> m s = None) ->
  forall s, forallb (neqc k) s = true -> re_sub m s = s.
Proof.
  intros M. unfold re_sub. induction s as [|c s IH]; [reflexivity|].
  intros H. cbn [sub_from]. rewrite (M (c :: s) H).
  simpl in H. apply andb_true_iff in H. destruct H as [H1 H2].
  rewrite (IH H2). reflexivity.
Qed.

Lemma re_sub_id (m : str -> option (str * str)) (k : char) :
  (forall c s, neqc k c = true -> m (c :: s) = None) ->
  forall s, forallb (neqc k) s = true -> re_sub m s = s.
Proof.
  intros M. unfold re_sub. induction s as [|c s IH]; [reflexivity|].
  intros H. simpl in H. apply andb_true_iff in H. destruct H as [H1 H2].
  cbn [sub_from]. rewrite (M c s H1), (IH H2). reflexivity.
Qed.

Lemma delimited_first (k : char) (op cl : str) (c : char) (s : str) :
  neqc k c = true -> delimited (k :: op) cl (c :: s) = None.
Proof.
  intros H. apply neqc_eqc in H. unfold eqc in H. unfold delimited. simpl.
  rewrite N.eqb_sym, H. reflexivity.
Qed.

Lemma sub_image_id (s : str) : forallb (neqc LBRA) s = true -> sub_image s = s.
Proof.
  apply re_sub_id_all. intros t Ht.
  assert (G : IMAGE_RE t = None).
  { unfold IMAGE_RE. destruct t as [|c [|c0 t]]; try reflexivity.
    simpl in Ht. apply andb_true_iff in Ht. destruct Ht as [_ Ht].
    apply andb_true_iff in Ht. destruct Ht as [Ht _].
    rewrite (neqc_eqc _ _ Ht), andb_false_r. reflexivity. }
  rewrite G. reflexivity.
Qed.

Lemma sub_link_id (s : str) : forallb (neqc LBRA) s = true -> sub_link s = s.
Proof.
  apply re_sub_id. intros c t H. unfold LINK_RE.
  rewrite (neqc_eqc _ _ H). reflexivity.
Qed.

Lemma sub_code_id (s : str) : forallb (neqc BQUOTE) s = true -> sub_code s = s.
Proof.
  apply re_sub_id. intros c t H. unfold wrap, INLINE_CODE_RE.
  rewrite (neqc_eqc _ _ H). reflexivity.
Qed.

Lemma sub_bold_id (s : str) : forallb (neqc STAR) s = true -> sub_bold s = s.
Proof.
  apply re_sub_id. intros c t H. unfold wrap, BOLD_RE.
  rewrite (@delimited_first _ _ _ _ _ H). reflexivity.
Qed.

Lemma sub_italic_id (s : str) :
  forallb (neqc STAR) s = true -> sub_italic s = s.
Proof.
  apply re_sub_id. intros c t H. unfold wrap, ITALIC_RE.
  rewrite (@delimited_first _ _ _ _ _ H). reflexivity.
Qed.

Lemma sub_strike_id (s : str) :
  forallb (neqc TILDE) s = true -> sub_strike s = s.
Proof.
  apply re_sub_id. intros c t H. unfold wrap, STRIKE_RE.
  rewrite (@delimited_first _ _ _ _ _ H). reflexivity.
Qed.

Lemma strip_tags_id (s : str) : forallb (neqc LT) s = true -> strip_tags s = s.
Proof.
  apply re_sub_id. intros c t H. unfold TAG_RE.
  rewrite (neqc_eqc _ _ H). reflexivity.
Qed.

Lemma plain_char_parts (c : char) :
  plain_char c = true ->
  neqc STAR c = true /\ neqc BQUOTE c = true /\ neqc TILDE c = true
  /\ neqc LBRA c = true /\ neqc NL c = true.
Proof.
  unfold plain_char. intros H.
  repeat (apply andb_true_iff in H; destruct H as [H ?]). auto.
Qed.

Lemma inline_parse_plain (s : str) :
  forallb plain_char s = true -> inline_parse s = s.
Proof.
  intros H. unfold inline_parse.
  rewrite sub_image_id, sub_link_id, sub_code_id, sub_bold_id, sub_italic_id,
    sub_strike_id;
    try reflexivity;
    (eapply forallb_weaken; [|exact H]); intros c Hc;
    apply plain_char_parts in Hc; apply Hc.
Qed.

(** ** Escaping and its inverse *)

Lemma escape_html_app (a b : str) :
  escape_html (a ++ b) = escape_html a ++ escape_html b.
Proof. unfold escape_html. apply flat_map_app. Qed.

Lemma escape_char_cases (c : char) :
  (special c = true
   /\ (escape_char c = py "&amp;" \/ escape_char c = py "&lt;"
       \/ escape_char c = py "&gt;")
   /\ (c = AMP \/ c = LT \/ c = GT))
  \/ (special c = false /\ escape_char c = [c]).
Proof.
  unfold special, escape_char.
  destruct (eqc AMP c) eqn:E1.
  { left. apply eqc_true in E1. auto. }
  destruct (eqc LT c) eqn:E2.
  { left. apply eqc_true in E2. auto 6. }
  destruct (eqc GT c) eqn:E3.
  { left. apply eqc_true in E3. auto 6. }
  right. auto.
Qed.

Lemma forallb_escape (q : char -> bool) (s : str) :
  forallb q (py "&amp;") = true -> forallb q (py "&lt;") = true ->
  forallb q (py "&gt;") = true ->
  forallb q s = true -> forallb q (escape_html s) = true.
Proof.
  intros Q1 Q2 Q3. induction s as [|c s IH]; simpl; [auto|].
  intros H. apply andb_true_iff in H. destruct H as [H1 H2].
  rewrite forallb_app, (IH H2), andb_true_r.
  destruct (escape_char_cases c) as [(_ & [E|[E|E]] & _)|[_ E]]; rewrite E;
    auto.
  simpl. rewrite H1. reflexivity.
Qed.

Lemma escape_html_no_lt (s : str) : forallb (neqc LT) (escape_html s) = true.
Proof.
  induction s as [|c s IH]; simpl; [reflexivity|].
  rewrite forallb_app, IH, andb_true_r.
  destruct (escape_char_cases c) as [(_ & [E|[E|E]] & _)|[S E]]; rewrite E;
    try reflexivity.
  simpl. rewrite andb_true_r. unfold special in S.
  apply orb_false_iff in S. destruct S as [S _].
  apply orb_false_iff in S. destruct S as [_ S].
  unfold neqc. unfold eqc in S. rewrite S. reflexivity.
Qed.

Lemma html_unescape_escape (s : str) : html_unescape (escape_html s) = s.
Proof.
  induction s as [|c s IH]; [reflexivity|].
  change (escape_html (c :: s)) with (escape_char c ++ escape_html s).
  destruct (escape_char_cases c) as [(_ & _ & [C|[C|C]])|[S E]].
  - subst c.
    change (escape_char AMP ++ escape_html s)
      with (AMP :: 97 :: 109 :: 112 :: 59 :: escape_html s)%N.
    cbn. rewrite IH. reflexivity.
  - subst c.
    change (escape_char LT ++ escape_html s)
      with (AMP :: 108 :: 116 :: 59 :: escape_html s)%N.
    cbn. rewrite IH. reflexivity.
  - subst c.
    change (escape_char GT ++ escape_html s)
      with (AMP :: 103 :: 116 :: 59 :: escape_html s)%N.
    cbn. rewrite IH. reflexivity.
  - rewrite E. unfold special in S. apply orb_false_iff in S.
    destruct S as [S _]. apply orb_false_iff in S. destruct S as [S _].
    cbn [app html_unescape]. rewrite S, IH. reflexivity.
Qed.

Lemma special_not_space (c : char) : special c = true -> isspace c = false.
Proof.
  intros S. destruct (escape_char_cases c) as [(_ & _ & [C|[C|C]])|[S' _]];
    subst; try reflexivity. congruence.
Qed.

Lemma lstrip_escape (s : str) :
  lstrip (escape_html s) = escape_html (lstrip s).
Proof.
  unfold lstrip. induction s as [|c s IH]; [reflexivity|].
  change (escape_html (c :: s)) with (escape_char c ++ escape_html s).
  destruct (special c) eqn:S.
  - pose proof (special_not_space _ S) as W.
    destruct (escape_char_special _ S) as (d & t & E). rewrite E.
    cbn [app lstrip_by]. rewrite W.
    change (isspace AMP) with false. cbv iota.
    change (escape_html (c :: s)) with (escape_char c ++ escape_html s).
    rewrite E. reflexivity.
  - rewrite (escape_char_plain _ S). cbn [app lstrip_by].
    destruct (isspace c); [exact IH|].
    change (escape_html (c :: s)) with (escape_char c ++ escape_html s).
    rewrite (escape_char_plain _ S). reflexivity.
Qed.

Lemma rstrip_by_over_app (p : char -> bool) (a b : str) :
  rstrip_by p (a ++ b)
  = match rstrip_by p b with
    | [] => rstrip_by p a
    | r => a ++ r
    end.
Proof.
  induction a as [|x a IH]; cbn [app rstrip_by].
  - destruct (rstrip_by p b); reflexivity.
  - rewrite IH. destruct (rstrip_by p b) as [|y r]; [reflexivity|].
    destruct a; reflexivity.
Qed.

Lemma escape_char_rstrip (c : char) :
  rstrip (escape_char c) = if isspace c then [] else escape_char c.
Proof.
  destruct (escape_char_cases c) as [(_ & _ & [C|[C|C]])|[S E]];
    subst; try reflexivity.
  rewrite E. unfold rstrip. simpl. destruct (isspace c); reflexivity.
Qed.

Lemma escape_html_nil (s : str) : escape_html s = [] -> s = [].
Proof.
  intros H. pose proof (escape_html_length s) as L. rewrite H in L.
  destruct s; [reflexivity | simpl in L; lia].
Qed.

Lemma rstrip_escape (s : str) :
  rstrip (escape_html s) = escape_html (rstrip s).
Proof.
  unfold rstrip. induction s as [|c s IH]; [reflexivity|].
  change (escape_html (c :: s)) with (escape_char c ++ escape_html s).
  rewrite rstrip_by_over_app, IH. cbn [rstrip_by].
  destruct (rstrip_by isspace s) as [|y r] eqn:R.
  - change (escape_html []) with (@nil char). cbv iota.
    fold (rstrip (escape_char c)). rewrite escape_char_rstrip.
    destruct (isspace c); [reflexivity|].
    change (escape_html [c]) with (escape_char c ++ []).
    rewrite app_nil_r. reflexivity.
  - destruct (escape_html (y :: r)) as [|z u] eqn:Z.
    + apply escape_html_nil in Z. discriminate.
    + rewrite <- Z. reflexivity.
Qed.

Lemma strip_escape (s : str) : strip (escape_html s) = escape_html (strip s).
Proof.
  unfold strip, strip_by. fold lstrip rstrip.
  rewrite lstrip_escape, rstrip_escape. reflexivity.
Qed.

(** ** Text that is not blank *)

Lemma lstrip_by_nil (p : char -> bool) (s : str) :
  lstrip_by p s = [] -> forallb p s = true.
Proof.
  induction s as [|c s IH]; simpl; [reflexivity|].
  destruct (p c); [exact IH | discriminate].
Qed.

Lemma rstrip_by_nil (p : char -> bool) (s : str) :
  rstrip_by p s = [] -> forallb p s = true.
Proof.
  induction s as [|c s IH]; simpl; [reflexivity|].
  destruct (rstrip_by p s); [|discriminate].
  destruct (p c); [intros _; apply IH; reflexivity | discriminate].
Qed.

Lemma forallb_rstrip_by_nil (p : char -> bool) (s : str) :
  forallb p s = true -> rstrip_by p s = [].
Proof.
  induction s as [|c s IH]; simpl; [reflexivity|].
  intros H. apply andb_true_iff in H. destruct H as [H1 H2].
  rewrite (IH H2), H1. reflexivity.
Qed.

Lemma forallb_lstrip_by_inv (p : char -> bool) (s : str) :
  forallb p (lstrip_by p s) = true -> forallb p s = true.
Proof.
  induction s as [|c s IH]; simpl; [reflexivity|].
  destruct (p c) eqn:P; simpl; [exact IH|]. rewrite P. discriminate.
Qed.

Lemma strip_nil (s : str) : strip s = [] -> forallb isspace s = true.
Proof.
  unfold strip, strip_by. intros H. apply rstrip_by_nil in H.
  apply forallb_lstrip_by_inv in H. exact H.
Qed.

Lemma rstrip_by_same (p : char -> bool) (s : str) :
  existsb p s = false -> rstrip_by p s = s.
Proof.
  induction s as [|c s IH]; simpl; [reflexivity|].
  intros H. apply orb_false_iff in H. destruct H as [H1 H2].
  rewrite (IH H2), H1. destruct s; reflexivity.
Qed.

(** ** The description *)

Lemma step_meta (raw : str) (rest lines' : list str) (st st' : state) :
  truthy (meta_desc st) = true ->
  step raw rest st = Some (lines', st') ->
  meta_desc st' = meta_desc st.
Proof.
  intros T H. step_cases raw st H.
  - inversion H; reflexivity.
  - inversion H; reflexivity.
  - inversion H; reflexivity.
  - inversion H; reflexivity.
  - inversion H. destruct (negb (truthy (title st))); reflexivity.
  - destruct (list_loop (raw :: rest) [] (html_lines st))
      as [[[l2 stack] h2]|]; [|discriminate].
    inversion H; reflexivity.
  - destruct (span_lines TABLE_ROW_RE rest) as [more l2].
    destruct (parse_table (rstrip raw :: more)); [|discriminate].
    inversion H; reflexivity.
  - destruct (span_lines bq_line (raw :: rest)) as [quoted l2].
    inversion H; reflexivity.
  - inversion H; reflexivity.
  - destruct (span_lines para_continues rest) as [more l2].
    rewrite T in H. cbn [negb] in H. inversion H; reflexivity.
Qed.

Lemma loop_meta :
  forall fuel lines st r,
    truthy (meta_desc st) = true -> loop fuel lines st = Some r ->
    meta_desc r = meta_desc st.
Proof.
  induction fuel as [|fuel IH]; intros lines st r T L.
  - destruct lines; [|discriminate]. inversion L; reflexivity.
  - destruct lines as [|raw rest]; [inversion L; reflexivity|].
    simpl in L. destruct (step raw rest st) as [[l2 s2]|] eqn:S;
      [|discriminate].
    pose proof (step_meta _ _ _ T S) as M.
    rewrite <- M. apply (IH l2 s2 r); [rewrite M; exact T | exact L].
Qed.

Lemma plain_parts (l : str) :
  plain l = true ->
  forallb plain_char l = true /\ endswith l [SP; SP] = false.
Proof.
  unfold plain. intros H. apply andb_true_iff in H. destruct H as [H1 H2].
  apply negb_true_iff in H2. auto.
Qed.

Lemma plain_no_nl (l : str) :
  forallb plain_char l = true -> existsb (eqc NL) l = false.
Proof.
  induction l as [|c l IH]; simpl; [reflexivity|].
  intros H. apply andb_true_iff in H. destruct H as [H1 H2].
  apply plain_char_parts in H1. destruct H1 as (_ & _ & _ & _ & N).
  rewrite (neqc_eqc _ _ N), (IH H2). reflexivity.
Qed.

Lemma escape_plain (l : str) :
  forallb plain_char l = true -> forallb plain_char (escape_html l) = true.
Proof. apply forallb_escape; reflexivity. Qed.

(** The parts of a paragraph of plain lines are its lines, escaped, with
    one space between them. *)
Lemma para_parts_plain (para_lines : list str) :
  forallb plain para_lines = true ->
  concat (para_parts para_lines) = escape_html (join [SP] para_lines).
Proof.
  induction para_lines as [|pl more IH]; [reflexivity|].
  intros H. simpl in H. apply andb_true_iff in H. destruct H as [H1 H2].
  apply plain_parts in H1. destruct H1 as [P E].
  cbn [para_parts]. rewrite (rstrip_by_same _ _ (plain_no_nl _ P)), E.
  rewrite (inline_parse_plain _ (escape_plain _ P)).
  rewrite concat_app, (IH H2).
  destruct more as [|l2 more].
  - cbn [concat join app]. change (escape_html []) with (@nil char).
    rewrite !app_nil_r. reflexivity.
  - change (join [SP] (pl :: l2 :: more))
      with (pl ++ [SP] ++ join [SP] (l2 :: more)).
    rewrite !escape_html_app. cbn [concat app].
    change (escape_html [SP]) with [SP].
    rewrite <- !app_assoc. reflexivity.
Qed.

Lemma describe_escaped (text : str) :
  describe (escape_html text) = truncated text.
Proof.
  unfold describe, truncated.
  rewrite (strip_tags_id _ (escape_html_no_lt text)), html_unescape_escape.
  reflexivity.
Qed.

Lemma truncated_nonempty (text : str) : text <> [] -> truncated text <> [].
Proof.
  unfold truncated. intros N. destruct (160 <? length text); [|exact N].
  intros Z. apply app_eq_nil in Z. destruct Z as [_ Z]. discriminate.
Qed.

Lemma join_first (l : str) (more : list str) :
  exists t, join [SP] (l :: more) = l ++ t.
Proof.
  destruct more as [|l2 more]; simpl.
  - exists []. rewrite app_nil_r. reflexivity.
  - eexists. reflexivity.
Qed.

Lemma paragraph_text_nonempty (raw : str) (more : list str) :
  (length (strip (rstrip raw)) =? 0) = false ->
  strip (join [SP] (raw :: more)) <> [].
Proof.
  intros B Z. apply strip_nil in Z.
  destruct (join_first raw more) as [t E]. rewrite E, forallb_app in Z.
  apply andb_true_iff in Z. destruct Z as [Z _].
  apply forallb_rstrip_by_nil in Z. fold (rstrip raw) in Z.
  rewrite Z in B. discriminate.
Qed.

(** The paragraph branch of the main loop on a maximal run of paragraph
    lines. *)
Lemma paragraph_step (raw : str) (more rest : list str) (st : state) :
  inside_code st = false ->
  starts_paragraph raw = true ->
  forallb para_continues more = true ->
  ends_run para_continues rest = true ->
  let parsed := strip (concat (para_parts (raw :: more))) in
  step raw (more ++ rest) st
  = Some (rest,
          append_html (py "<p>" ++ parsed ++ py "</p>")
            (if negb (truthy (meta_desc st))
             then set_meta_desc (Some (describe parsed)) st else st)).
Proof.
  intros IC S F E parsed. unfold starts_paragraph in S.
  repeat (apply andb_true_iff in S; destruct S as [S ?]).
  repeat match goal with
         | H : negb _ = true |- _ => apply negb_true_iff in H
         end.
  unfold step.
  destruct (FENCE_RE (rstrip raw)); [discriminate|].
  rewrite IC.
  destruct (length (strip (rstrip raw)) =? 0); [discriminate|].
  destruct (HEADING_RE (rstrip raw)) as [[g1 g2]|]; [discriminate|].
  destruct (matches (UL_ITEM_RE (rstrip raw))
            || matches (OL_ITEM_RE (rstrip raw))); [discriminate|].
  destruct (TABLE_ROW_RE (rstrip raw)); [discriminate|].
  destruct (matches (BLOCKQUOTE_RE (rstrip raw))); [discriminate|].
  destruct (HR_RE (rstrip raw)); [discriminate|].
  rewrite (span_lines_run _ _ _ F E). reflexivity.
Qed.

(** C6.  When the main loop reaches, with no description yet, a paragraph
    whose lines are plain text (no inline markup, no line break mark), the
    description of the result is that text, trimmed, when it has at most 160
    characters, and otherwise its first 157 characters followed by
    ["..."].  The description is assigned by the paragraph branch only, so
    the first paragraph is reached with no description. *)
Theorem description_of_plain_paragraph
  (n : nat) (md raw : str) (more rest : list str) (st : state) :
  steps n (splitlines md) init_state = Some (raw :: more ++ rest, st) ->
  inside_code st = false ->
  truthy (meta_desc st) = false ->
  starts_paragraph raw = true ->
  forallb para_continues more = true ->
  ends_run para_continues rest = true ->
  forallb plain (raw :: more) = true ->
  exists r,
    md_to_html md = Some r
    /\ p_meta r
       = (let text := strip (join [SP] (raw :: more)) in
          if 160 <? length text then firstn 157 text ++ py "..." else text).
Proof.
  intros S IC T Hp F E P.
  destruct (@md_to_html_from _ _ _ _ S) as (fuel & r & L & R).
  exists (finish r). split; [exact R|].
  destruct fuel as [|fuel]; [discriminate|]. cbn [loop] in L.
  pose proof (@paragraph_step raw more rest st IC Hp F E) as PS.
  cbv zeta in PS. rewrite PS in L. clear PS.
  rewrite T in L. cbn [negb] in L.
  rewrite (para_parts_plain _ P), strip_escape, describe_escaped in L.
  assert (N : truncated (strip (join [SP] (raw :: more))) <> []).
  { apply truncated_nonempty, paragraph_text_nonempty.
    unfold starts_paragraph in Hp.
    repeat (apply andb_true_iff in Hp; destruct Hp as [Hp ?]).
    repeat match goal with
           | H : negb _ = true |- _ => apply negb_true_iff in H
           end.
    assumption. }
  apply loop_meta in L.
  - unfold finish. cbn [p_meta]. rewrite L.
    cbn [meta_desc append_html set_html_lines set_meta_desc].
    fold (truncated (strip (join [SP] (raw :: more)))).
    destruct (truncated (strip (join [SP] (raw :: more)))); [congruence|].
    reflexivity.
  - cbn [meta_desc append_html set_html_lines set_meta_desc].
    destruct (truncated (strip (join [SP] (raw :: more)))); [congruence|].
    reflexivity.
Qed.

Lemma description_of_plain_paragraph_witness :
  exists r,
    md_to_html (py "# T" ++ [NL] ++ concat (repeat (py "lorem ipsum ") 8)
                ++ [NL] ++ concat (repeat (py "dolor sit ") 8)) = Some r
    /\ p_meta r
       = (let text :=
            strip (join [SP] (concat (repeat (py "lorem ipsum ") 8)
                              :: [concat (repeat (py "dolor sit ") 8)])) in
          if 160 <? length text then firstn 157 text ++ py "..." else text).
Proof.
  apply (@description_of_plain_paragraph 1
           (py "# T" ++ [NL] ++ concat (repeat (py "lorem ipsum ") 8)
            ++ [NL] ++ concat (repeat (py "dolor sit ") 8))
           (concat (repeat (py "lorem ipsum ") 8))
           [concat (repeat (py "dolor sit ") 8)] []
           (mkState [py "<h1>T</h1>"] (Some (py "T")) None false [] []));
    vm_compute; reflexivity.
Defined.

(** ** Quotes in attribute values *)


Lemma safe_parts (c : char) :
  safe c = true ->
  plain_char c = true /\ neqc RBRA c = true /\ neqc RPAR c = true
  /\ special c = false.
Proof.
  unfold safe. intros H.
  apply andb_true_iff in H. destruct H as [H S].
  apply andb_true_iff in H. destruct H as [H R2].
  apply andb_true_iff in H. destruct H as [P R1].
  apply negb_true_iff in S. auto.
Qed.


Lemma safe_escape (s : str) : forallb safe s = true -> escape_html s = s.
Proof.
  intros H. apply escape_html_plain.
  induction s as [|c s IH]; simpl in *; [reflexivity|].
  apply andb_true_iff in H. destruct H as [H1 H2].
  apply safe_parts in H1. destruct H1 as (_ & _ & _ & S).
  rewrite S, (IH H2). reflexivity.
Qed.

Lemma safe_is (q : char -> bool) (s : str) :
  (forall c, safe c = true -> q c = true) ->
  forallb safe s = true -> forallb q s = true.
Proof. apply forallb_weaken. Qed.

Lemma safe_neqc (k : char) (s : str) :
  k = STAR \/ k = BQUOTE \/ k = TILDE \/ k = LBRA \/ k = RBRA \/ k = RPAR ->
  forallb safe s = true -> forallb (neqc k) s = true.
Proof.
  intros K. apply safe_is. intros c H. apply safe_parts in H.
  destruct H as (P & R1 & R2 & _). apply plain_char_parts in P.
  destruct P as (P1 & P2 & P3 & P4 & _).
  destruct K as [->|[->|[->|[->|[->| ->]]]]]; assumption.
Qed.

Lemma span_app_exact (p : char -> bool) (t : str) (c : char) (r : str) :
  forallb p t = true -> p c = false -> span p (t ++ c :: r) = (t, c :: r).
Proof.
  intros F C. induction t as [|d t IH]; simpl in *.
  - rewrite C. reflexivity.
  - apply andb_true_iff in F. destruct F as [F1 F2].
    rewrite F1, (IH F2). reflexivity.
Qed.

Lemma sub_from_skip_all (m : str -> option (str * str)) :
  forall s k, length s <= k -> sub_from m k s = [].
Proof.
  induction s as [|c s IH]; intros k L; [reflexivity|].
  simpl in L. destruct k as [|k]; [lia|]. cbn [sub_from]. apply IH. lia.
Qed.

(** A pattern that matches the whole text is replaced once. *)
Lemma re_sub_whole (m : str -> option (str * str)) (s out : str) :
  s <> [] -> m s = Some (out, []) -> re_sub m s = out.
Proof.
  intros N M. unfold re_sub. destruct s as [|c s]; [congruence|].
  cbn [sub_from]. rewrite M, sub_from_skip_all, app_nil_r; [reflexivity|].
  simpl. lia.
Qed.

Lemma re_sub_skip (m : str -> option (str * str)) (c : char) (s : str) :
  m (c :: s) = None -> re_sub m (c :: s) = c :: re_sub m s.
Proof. intros M. unfold re_sub. cbn [sub_from]. rewrite M. reflexivity. Qed.
















(** * Further properties of the converter *)

(** ** Escaping *)

(** X1.  Whatever the text, its escaped form holds no ["<"] and no [">"]:
    escaped text cannot open or close a tag. *)
Theorem escape_html_no_angle_bracket (s : str) :
  forallb (fun c => neqc LT c && neqc GT c) (escape_html s) = true.
Proof.
  induction s as [|c s IH]; simpl; [reflexivity|].
  rewrite forallb_app, IH, andb_true_r.
  destruct (escape_char_cases c) as [(_ & [E|[E|E]] & _)|[S E]]; rewrite E;
    try reflexivity.
  unfold special in S. apply orb_false_iff in S. destruct S as [S S3].
  apply orb_false_iff in S. destruct S as [_ S2].
  simpl. unfold neqc. unfold eqc in S2, S3. rewrite S2, S3. reflexivity.
Qed.

(** X2.  Escaping loses nothing: two texts with the same escaped form are
    the same text. *)
Theorem escape_html_injective (a b : str) :
  escape_html a = escape_html b -> a = b.
Proof.
  intros H. rewrite <- (html_unescape_escape a), <- (html_unescape_escape b).
  rewrite H. reflexivity.
Qed.

Lemma escape_html_injective_witness :
  py "a<b" = [97; 60; 98]%N.
Proof.
  apply (@escape_html_injective (py "a<b") [97; 60; 98]%N). reflexivity.
Defined.

(** ** The description *)

Lemma describe_length (parsed : str) : length (describe parsed) <= 160.
Proof.
  unfold describe.
  destruct (160 <? length (html_unescape (strip_tags parsed))) eqn:L.
  - apply Nat.ltb_lt in L. rewrite length_app, firstn_length_le by lia.
    change (length (py "...")) with 3. lia.
  - apply Nat.ltb_ge in L. exact L.
Qed.

(** The description changes in the paragraph branch only, which then appends
    the paragraph it is made of. *)
Lemma step_meta_cases (raw : str) (rest lines' : list str) (st st' : state) :
  step raw rest st = Some (lines', st') ->
  meta_desc st' = meta_desc st
  \/ exists parsed,
       meta_desc st' = Some (describe parsed)
       /\ html_lines st' = html_lines st ++ [py "<p>" ++ parsed ++ py "</p>"].
Proof.
  intros H. step_cases raw st H.
  - inversion H; left; reflexivity.
  - inversion H; left; reflexivity.
  - inversion H; left; reflexivity.
  - inversion H; left; reflexivity.
  - inversion H. left. destruct (negb (truthy (title st))); reflexivity.
  - destruct (list_loop (raw :: rest) [] (html_lines st))
      as [[[l2 stack] h2]|]; [|discriminate].
    inversion H; left; reflexivity.
  - destruct (span_lines TABLE_ROW_RE rest) as [more l2].
    destruct (parse_table (rstrip raw :: more)); [|discriminate].
    inversion H; left; reflexivity.
  - destruct (span_lines bq_line (raw :: rest)) as [quoted l2].
    inversion H; left; reflexivity.
  - inversion H; left; reflexivity.
  - destruct (span_lines para_continues rest) as [more l2].
    destruct (negb (truthy (meta_desc st))); inversion H.
    + right. eexists. split; reflexivity.
    + left. reflexivity.
Qed.

Lemma loop_meta_bound :
  forall fuel lines st r,
    (forall m, meta_desc st = Some m -> length m <= 160) ->
    loop fuel lines st = Some r ->
    forall m, meta_desc r = Some m -> length m <= 160.
Proof.
  induction fuel as [|fuel IH]; intros lines st r B L.
  - destruct lines; [|discriminate]. inversion L; subst. exact B.
  - destruct lines as [|raw rest]; [inversion L; subst; exact B|].
    simpl in L. destruct (step raw rest st) as [[l2 s2]|] eqn:S;
      [|discriminate].
    apply (IH l2 s2 r); [|exact L].
    destruct (step_meta_cases _ _ _ S) as [E|(p & E & _)]; rewrite E.
    + exact B.
    + intros m M. inversion M. apply describe_length.
Qed.

(** X3.  The description of every document has at most 160 characters. *)
Theorem description_at_most_160 (md : str) :
  exists r, md_to_html md = Some r /\ length (p_meta r) <= 160.
Proof.
  unfold md_to_html.
  destruct (@loop_total (length (splitlines md)) (splitlines md) init_state
              (le_n _)) as [st E].
  rewrite E. eexists. split; [reflexivity|].
  assert (B : forall m, meta_desc st = Some m -> length m <= 160).
  { eapply loop_meta_bound; [|exact E].
    intros m H. discriminate. }
  unfold finish. cbn [p_meta].
  destruct (meta_desc st) as [[|c m]|]; cbn [or_else length]; try lia.
  apply (B (c :: m) eq_refl).
Qed.

(** ** Documents without text *)

Lemma blank_line_rstrip (l : str) : blank_line l = true -> rstrip l = [].
Proof.
  unfold blank_line. intros H. apply Nat.eqb_eq in H.
  apply length_zero_iff_nil in H. apply strip_nil in H.
  apply forallb_rstrip_by_nil. exact H.
Qed.

Lemma loop_blank :
  forall lines fuel st,
    inside_code st = false -> forallb blank_line lines = true ->
    length lines <= fuel -> loop fuel lines st = Some st.
Proof.
  induction lines as [|raw rest IH]; intros fuel st IC B L.
  - destruct fuel; reflexivity.
  - destruct fuel as [|fuel]; [simpl in L; lia|].
    simpl in B. apply andb_true_iff in B. destruct B as [B1 B2].
    cbn [loop]. unfold step. rewrite (blank_line_rstrip _ B1).
    change (FENCE_RE []) with (@None str). cbv iota. rewrite IC.
    change (length (strip []) =? 0) with true. cbv iota.
    apply IH; [exact IC | exact B2 | simpl in L; lia].
Qed.

(** X4.  A document whose lines are all empty or white space, the empty
    document among them, gives the empty body, the fallback title and the
    empty description. *)
Theorem blank_document (md : str) :
  forallb blank_line (splitlines md) = true ->
  md_to_html md = Some (mkParsed default_title [] []).
Proof.
  intros B. unfold md_to_html.
  rewrite loop_blank; [reflexivity | reflexivity | exact B | lia].
Qed.

Lemma blank_document_witness :
  md_to_html (py "  " ++ [NL; NL; TAB] ++ [CR; NL])
  = Some (mkParsed default_title [] [])
  /\ md_to_html [] = Some (mkParsed default_title [] []).
Proof.
  split; apply blank_document; vm_compute; reflexivity.
Defined.

(** ** The cursor and the fragments *)

(** X5.  Every iteration of the main loop returns, and the cursor it leaves
    is a suffix of the lines after the one it started on: the pass goes
    forward only, and no line is read by two iterations. *)
Theorem step_cursor_forward (raw : str) (rest : list str) (st : state) :
  exists consumed lines' st',
    step raw rest st = Some (lines', st') /\ rest = consumed ++ lines'.
Proof.
  unfold step.
  destruct (FENCE_RE (rstrip raw)).
  { destruct (negb (inside_code st)); exists []; eauto. }
  destruct (inside_code st); [exists []; eauto|].
  destruct (length (strip (rstrip raw)) =? 0); [exists []; eauto|].
  destruct (HEADING_RE (rstrip raw)) as [[g1 g2]|]; [exists []; eauto|].
  destruct (matches (UL_ITEM_RE (rstrip raw)) || matches (OL_ITEM_RE (rstrip raw)))
    eqn:LI.
  { destruct (list_branch_advances raw rest (html_lines st) LI)
      as (a & b & c & E & L).
    rewrite E. destruct (list_loop_consumed _ _ _ E) as (consumed & C & _).
    destruct consumed as [|x consumed].
    - simpl in C. subst a. simpl in L. lia.
    - inversion C; subst. eauto. }
  destruct (TABLE_ROW_RE (rstrip raw)).
  { destruct (span_lines TABLE_ROW_RE rest) as [more lines'] eqn:E.
    apply span_lines_app in E. destruct E as [E _]. simpl. eauto. }
  destruct (matches (BLOCKQUOTE_RE (rstrip raw))) eqn:BQ.
  { simpl. unfold bq_line at 1. rewrite BQ.
    destruct (span_lines bq_line rest) as [more lines'] eqn:E.
    apply span_lines_app in E. destruct E as [E _]. eauto. }
  destruct (HR_RE (rstrip raw)); [exists []; eauto|].
  destruct (span_lines para_continues rest) as [more lines'] eqn:E.
  apply span_lines_app in E. destruct E as [E _]. eauto.
Qed.

Lemma last_line_app (base added : list str) :
  added <> [] -> last_line (base ++ added) = last_line added.
Proof.
  intros N. induction base as [|b base IH]; [reflexivity|].
  cbn [app last_line]. rewrite IH.
  destruct (base ++ added) eqn:Z; [|reflexivity].
  apply app_eq_nil in Z. destruct Z. contradiction.
Qed.

Lemma set_last_app (x : str) (base added : list str) :
  added <> [] -> set_last x (base ++ added) = base ++ set_last x added.
Proof.
  intros N. unfold set_last. rewrite removelast_app by exact N.
  rewrite app_assoc. reflexivity.
Qed.

Lemma set_last_nonempty (x : str) (l : list str) : set_last x l <> [].
Proof. unfold set_last. intros Z. apply app_eq_nil in Z. destruct Z. discriminate. Qed.

Lemma close_inline_li_app (base added : list str) :
  added <> [] ->
  close_inline_li (base ++ added) = base ++ close_inline_li added.
Proof.
  intros N. unfold close_inline_li. rewrite last_line_app by exact N.
  destruct (last_line added) as [x|]; [|reflexivity].
  destruct (negb (endswith x (py "</li>"))); [|reflexivity].
  apply set_last_app. exact N.
Qed.

Lemma close_inline_li_nonempty (added : list str) :
  added <> [] -> close_inline_li added <> [].
Proof.
  intros N. unfold close_inline_li.
  destruct (last_line added) as [x|]; [|exact N].
  destruct (negb (endswith x (py "</li>"))); [|exact N].
  apply set_last_nonempty.
Qed.

Lemma pop_deeper_app (indent : nat) :
  forall stack h, exists more,
    snd (pop_deeper indent stack h) = h ++ more.
Proof.
  induction stack as [|[top ttype] stack IH]; intros h; cbn [pop_deeper].
  - exists []. rewrite app_nil_r. reflexivity.
  - destruct (indent <? top).
    + destruct (IH (h ++ [close_tag ttype])) as [more E]. rewrite E.
      rewrite <- app_assoc. eauto.
    + exists []. rewrite app_nil_r. reflexivity.
Qed.

Lemma close_lists_app :
  forall stack h, exists more, close_lists stack h = h ++ more.
Proof.
  induction stack as [|[top ttype] stack IH]; intros h; cbn [close_lists].
  - exists []. rewrite app_nil_r. reflexivity.
  - destruct (IH (h ++ [close_tag ttype])) as [more E]. rewrite E.
    rewrite <- app_assoc. eauto.
Qed.

Lemma app_nonempty_r {A : Type} (a b : list A) : b <> [] -> a ++ b <> [].
Proof. intros N Z. apply app_eq_nil in Z. destruct Z. contradiction. Qed.

Lemma app_nonempty_l {A : Type} (a b : list A) : a <> [] -> a ++ b <> [].
Proof. intros N Z. apply app_eq_nil in Z. destruct Z. contradiction. Qed.

(** The inner loop of the list branch rewrites only what it has appended
    itself. *)
Lemma list_loop_appends (base : list str) :
  forall lines stack added lines' stack' h',
    added <> [] ->
    list_loop lines stack (base ++ added) = Some (lines', stack', h') ->
    exists added', added' <> [] /\ h' = base ++ added'.
Proof.
  induction lines as [|l rest IH]; intros stack added lines' stack' h' N H;
    simpl in H.
  - inversion H; subst. eauto.
  - destruct (negb (matches (UL_ITEM_RE l) || matches (OL_ITEM_RE l))).
    { inversion H; subst. eauto. }
    destruct (_list_match l) as [[[lt indent] content]|].
    2:{ inversion H; subst. eauto. }
    destruct stack as [|[top_indent top_type] stack0].
    + rewrite <- !app_assoc in H.
      apply IH in H; [exact H | apply app_nonempty_l; exact N].
    + destruct (top_indent <? indent).
      * rewrite last_line_app in H by exact N.
        destruct (last_line added) as [x|]; [|discriminate].
        rewrite set_last_app, <- app_assoc in H by exact N.
        apply IH in H; [exact H | apply app_nonempty_r; discriminate].
      * destruct (indent =? top_indent).
        -- rewrite close_inline_li_app, <- app_assoc in H by exact N.
           apply IH in H; [exact H | apply app_nonempty_r; discriminate].
        -- rewrite close_inline_li_app in H by exact N.
           destruct (pop_deeper_app indent ((top_indent, top_type) :: stack0)
                       (base ++ close_inline_li added)) as [more E].
           destruct (pop_deeper indent ((top_indent, top_type) :: stack0)
                       (base ++ close_inline_li added)) as [stack2 h2].
           cbn [snd] in E. subst h2.
           rewrite <- app_assoc, close_inline_li_app, <- app_assoc in H
             by (apply app_nonempty_l, close_inline_li_nonempty; exact N).
           apply IH in H; [exact H | apply app_nonempty_r; discriminate].
Qed.

Lemma step_appends (raw : str) (rest lines' : list str) (st st' : state) :
  step raw rest st = Some (lines', st') ->
  exists added, html_lines st' = html_lines st ++ added.
Proof.
  intros H. step_cases raw st H.
  - inversion H. cbn. eauto.
  - inversion H. exists []. cbn. rewrite app_nil_r. reflexivity.
  - inversion H. exists []. cbn. rewrite app_nil_r. reflexivity.
  - inversion H. exists []. rewrite app_nil_r. reflexivity.
  - inversion H. destruct (negb (truthy (title st))); cbn; eauto.
  - pose proof (list_item_rstrip _ Flist) as LI.
    destruct (list_match_some _ LI) as [[[lt indent] content] M].
    cbn [list_loop] in H. rewrite LI, M in H. cbn [negb] in H.
    rewrite <- app_assoc in H.
    destruct (list_loop rest [(indent, lt)]
                (html_lines st ++ [open_tag lt] ++ [li content]))
      as [[[l2 stack] h2]|] eqn:LL; [|discriminate].
    apply list_loop_appends in LL; [|discriminate].
    destruct LL as (added & N & E). subst h2.
    inversion H. cbn [html_lines set_html_lines].
    rewrite close_inline_li_app by exact N.
    destruct (close_lists_app stack (html_lines st ++ close_inline_li added))
      as [more E]. rewrite E, <- app_assoc. eauto.
  - destruct (span_lines TABLE_ROW_RE rest) as [more l2].
    destruct (parse_table (rstrip raw :: more)); [|discriminate].
    inversion H. cbn. eauto.
  - destruct (span_lines bq_line (raw :: rest)) as [quoted l2].
    inversion H. cbn. eauto.
  - inversion H. cbn. eauto.
  - destruct (span_lines para_continues rest) as [more l2].
    destruct (negb (truthy (meta_desc st))); inversion H; cbn; eauto.
Qed.

(** X6.  An iteration of the main loop only appends to the fragments: what
    earlier blocks have put in [html_lines] is kept as it is, also by the
    list branch, which rewrites [html_lines[-1]]. *)
Theorem fragments_append_only (raw : str) (rest : list str) (st : state) :
  exists lines' st' added,
    step raw rest st = Some (lines', st')
    /\ html_lines st' = html_lines st ++ added.
Proof.
  destruct (step_advances raw rest st) as (lines' & st' & E & _).
  destruct (step_appends _ _ _ E) as [added A]. eauto.
Qed.

(** ** Fenced code *)

Lemma steps_code :
  forall code st n tail,
    inside_code st = true -> forallb not_fence code = true ->
    steps (length code + n) (code ++ tail) st
    = steps n tail
        (mkState (html_lines st) (title st) (meta_desc st) true (code_lang st)
           (code_lines st ++ code)).
Proof.
  induction code as [|raw code IH]; intros st n tail IC NF.
  - cbn [length app Nat.add]. rewrite app_nil_r. destruct st; simpl in *.
    subst. reflexivity.
  - simpl in NF. apply andb_true_iff in NF. destruct NF as [N1 N2].
    unfold not_fence in N1. apply negb_true_iff in N1.
    cbn [length app Nat.add steps]. unfold step.
    destruct (FENCE_RE (rstrip raw)); [discriminate|].
    rewrite IC. rewrite (IH (append_code raw st) n tail IC N2).
    cbn [html_lines title meta_desc code_lang code_lines append_code].
    rewrite <- app_assoc. reflexivity.
Qed.

(** X7.  A fence marker met outside fenced code, lines that are no fence
    marker, and a closing marker give one fragment: the lines as they are
    (trailing white space kept), escaped and not read as Markdown, joined by
    line feeds, with the language of the opening marker as class.  Title
    and description are left alone. *)
Theorem fenced_block
  (f c g1 : str) (code rest : list str) (st : state) :
  inside_code st = false ->
  FENCE_RE (rstrip f) = Some g1 ->
  forallb not_fence code = true ->
  matches (FENCE_RE (rstrip c)) = true ->
  steps (S (length code + 1)) (f :: code ++ c :: rest) st
  = Some (rest,
          mkState (html_lines st ++ [code_block_html (strip g1) code])
            (title st) (meta_desc st) false (strip g1) code).
Proof.
  intros IC F NF C.
  cbn [steps]. unfold step at 1. rewrite F, IC. cbn [negb].
  rewrite steps_code by (reflexivity || exact NF).
  cbn [html_lines title meta_desc code_lang code_lines open_fence app steps].
  unfold step. destruct (FENCE_RE (rstrip c)); [|discriminate].
  cbn [inside_code negb close_fence code_lines code_lang html_lines title
         meta_desc append_html set_html_lines].
  unfold code_block_html. destruct rest; reflexivity.
Qed.

Lemma fenced_block_witness :
  steps (S (length [py "# no *heading*  "; py "<b>"] + 1))
    (py "```py" :: [py "# no *heading*  "; py "<b>"] ++ py "```" :: [py "x"])
    init_state
  = Some ([py "x"],
          mkState ([] ++ [code_block_html (strip (py "py"))
                            [py "# no *heading*  "; py "<b>"]])
            None None false (strip (py "py"))
            [py "# no *heading*  "; py "<b>"]).
Proof.
  apply (@fenced_block (py "```py") (py "```") (py "py")
           [py "# no *heading*  "; py "<b>"] [py "x"] init_state);
    vm_compute; reflexivity.
Defined.

(** ** Paragraphs *)

(** X8.  A paragraph of plain lines (they may hold ["<"], [">"] and ["&"])
    gives the fragment made of its lines joined with one space, trimmed and
    escaped, between ["<p>"] and ["</p>"]. *)
Theorem plain_paragraph_escaped
  (raw : str) (more rest : list str) (st : state) :
  inside_code st = false ->
  starts_paragraph raw = true ->
  forallb para_continues more = true ->
  ends_run para_continues rest = true ->
  forallb plain (raw :: more) = true ->
  exists st',
    step raw (more ++ rest) st = Some (rest, st')
    /\ html_lines st'
       = html_lines st
         ++ [py "<p>" ++ escape_html (strip (join [SP] (raw :: more)))
             ++ py "</p>"].
Proof.
  intros IC Hp F E P.
  pose proof (@paragraph_step raw more rest st IC Hp F E) as PS.
  cbv zeta in PS. rewrite PS.
  rewrite (para_parts_plain _ P), strip_escape.
  eexists. split; [reflexivity|].
  destruct (negb (truthy (meta_desc st))); reflexivity.
Qed.

Lemma plain_paragraph_escaped_witness :
  exists st',
    step (py " if a<b then <script> ") ([py "& more"] ++ [[]]) init_state
    = Some ([[]], st')
    /\ html_lines st'
       = html_lines init_state
         ++ [py "<p>"
             ++ escape_html
                  (strip (join [SP] (py " if a<b then <script> "
                                     :: [py "& more"])))
             ++ py "</p>"].
Proof.
  apply (@plain_paragraph_escaped (py " if a<b then <script> ")
           [py "& more"] [[]] init_state); vm_compute; reflexivity.
Defined.

(** ** Inline spans *)

Lemma lazy_dot_star_exact (k : char) (lit x : str) :
  forallb (neqc k) x = true -> forallb (neqc NL) x = true ->
  lazy_dot_star (k :: lit) (x ++ k :: lit) = Some (x, []).
Proof.
  induction x as [|d x IH]; intros K N.
  - cbn [app lazy_dot_star].
    pose proof (strip_prefix_refl (k :: lit) []) as R.
    rewrite app_nil_r in R. rewrite R. reflexivity.
  - simpl in K, N. apply andb_true_iff in K. destruct K as [K1 K2].
    apply andb_true_iff in N. destruct N as [N1 N2].
    apply neqc_eqc in K1. apply neqc_eqc in N1. unfold eqc in K1.
    cbn [app lazy_dot_star strip_prefix]. rewrite N.eqb_sym, K1, N1.
    rewrite (IH K2 N2). reflexivity.
Qed.

Lemma delimited_exact (k : char) (op cl x : str) :
  (0 <? length x) = true ->
  forallb (neqc k) x = true -> forallb (neqc NL) x = true ->
  delimited op (k :: cl) (op ++ x ++ k :: cl) = Some (x, []).
Proof.
  intros L K N. unfold delimited. rewrite strip_prefix_refl.
  destruct x as [|c x]; [discriminate|].
  simpl in K, N. apply andb_true_iff in K. destruct K as [K1 K2].
  apply andb_true_iff in N. destruct N as [N1 N2].
  cbn [app lazy_dot_plus]. rewrite (neqc_eqc _ _ N1).
  rewrite (@lazy_dot_star_exact k cl x K2 N2). reflexivity.
Qed.

Lemma safe_no_nl (x : str) :
  forallb safe x = true -> forallb (neqc NL) x = true.
Proof.
  apply safe_is. intros c H. apply safe_parts in H. destruct H as [P _].
  apply plain_char_parts in P. apply P.
Qed.

Lemma sub_bold_one_star (x : str) :
  forallb (neqc STAR) x = true -> sub_bold (x ++ [STAR]) = x ++ [STAR].
Proof.
  unfold sub_bold. induction x as [|d x IH]; intros K; [reflexivity|].
  simpl in K. apply andb_true_iff in K. destruct K as [K1 K2].
  cbn [app]. rewrite re_sub_skip.
  - rewrite (IH K2). reflexivity.
  - unfold wrap, BOLD_RE. rewrite (@delimited_first _ _ _ _ _ K1).
    reflexivity.
Qed.

Ltac spans_free Kx := rewrite ?forallb_app, Kx; reflexivity.

Lemma inline_parse_bold (x : str) :
  (0 <? length x) = true -> forallb safe x = true ->
  inline_parse (escape_html ([STAR; STAR] ++ x ++ [STAR; STAR]))
  = py "<strong>" ++ x ++ py "</strong>".
Proof.
  intros L S.
  pose proof (@safe_neqc LBRA x (ltac:(auto 10)) S) as K1.
  pose proof (@safe_neqc BQUOTE x (ltac:(auto 10)) S) as K2.
  pose proof (@safe_neqc STAR x (ltac:(auto 10)) S) as K3.
  pose proof (@safe_neqc TILDE x (ltac:(auto 10)) S) as K4.
  rewrite !escape_html_app, (safe_escape _ S).
  change (escape_html [STAR; STAR]) with [STAR; STAR].
  unfold inline_parse.
  rewrite sub_image_id, sub_link_id, sub_code_id by spans_free K1 || spans_free K2.
  assert (B : sub_bold ([STAR; STAR] ++ x ++ [STAR; STAR])
              = py "<strong>" ++ x ++ py "</strong>").
  { unfold sub_bold. apply re_sub_whole; [discriminate|].
    unfold wrap, BOLD_RE.
    rewrite (@delimited_exact STAR [STAR; STAR] [STAR] x L K3
               (safe_no_nl _ S)). reflexivity. }
  rewrite B, sub_italic_id, sub_strike_id by spans_free K3 || spans_free K4.
  reflexivity.
Qed.

Lemma inline_parse_italic (x : str) :
  (0 <? length x) = true -> forallb safe x = true ->
  inline_parse (escape_html ([STAR] ++ x ++ [STAR]))
  = py "<em>" ++ x ++ py "</em>".
Proof.
  intros L S.
  pose proof (@safe_neqc LBRA x (ltac:(auto 10)) S) as K1.
  pose proof (@safe_neqc BQUOTE x (ltac:(auto 10)) S) as K2.
  pose proof (@safe_neqc STAR x (ltac:(auto 10)) S) as K3.
  pose proof (@safe_neqc TILDE x (ltac:(auto 10)) S) as K4.
  rewrite !escape_html_app, (safe_escape _ S).
  change (escape_html [STAR]) with [STAR].
  unfold inline_parse.
  rewrite sub_image_id, sub_link_id, sub_code_id by spans_free K1 || spans_free K2.
  assert (B : sub_bold ([STAR] ++ x ++ [STAR]) = [STAR] ++ x ++ [STAR]).
  { cbn [app]. unfold sub_bold. rewrite re_sub_skip.
    - fold sub_bold. rewrite (sub_bold_one_star _ K3). reflexivity.
    - destruct x as [|c x]; [discriminate|].
      simpl in K3. apply andb_true_iff in K3. destruct K3 as [K3 _].
      apply neqc_eqc in K3. unfold eqc in K3.
      unfold wrap, BOLD_RE, delimited. cbn [app strip_prefix].
      change (N.eqb STAR STAR) with true. cbv iota.
      rewrite N.eqb_sym, K3. reflexivity. }
  rewrite B.
  assert (I : sub_italic ([STAR] ++ x ++ [STAR])
              = py "<em>" ++ x ++ py "</em>").
  { unfold sub_italic. apply re_sub_whole; [discriminate|].
    unfold wrap, ITALIC_RE.
    rewrite (@delimited_exact STAR [STAR] [] x L K3 (safe_no_nl _ S)).
    reflexivity. }
  rewrite I, sub_strike_id by spans_free K4. reflexivity.
Qed.

Lemma inline_parse_strike (x : str) :
  (0 <? length x) = true -> forallb safe x = true ->
  inline_parse (escape_html ([TILDE; TILDE] ++ x ++ [TILDE; TILDE]))
  = py "<del>" ++ x ++ py "</del>".
Proof.
  intros L S.
  pose proof (@safe_neqc LBRA x (ltac:(auto 10)) S) as K1.
  pose proof (@safe_neqc BQUOTE x (ltac:(auto 10)) S) as K2.
  pose proof (@safe_neqc STAR x (ltac:(auto 10)) S) as K3.
  pose proof (@safe_neqc TILDE x (ltac:(auto 10)) S) as K4.
  rewrite !escape_html_app, (safe_escape _ S).
  change (escape_html [TILDE; TILDE]) with [TILDE; TILDE].
  unfold inline_parse.
  rewrite sub_image_id, sub_link_id, sub_code_id, sub_bold_id, sub_italic_id
    by spans_free K1 || spans_free K2 || spans_free K3.
  unfold sub_strike. apply re_sub_whole; [discriminate|].
  unfold wrap, STRIKE_RE.
  rewrite (@delimited_exact TILDE [TILDE; TILDE] [TILDE] x L K4
             (safe_no_nl _ S)). reflexivity.
Qed.

Lemma inline_parse_code (x : str) :
  (0 <? length x) = true -> forallb safe x = true ->
  inline_parse (escape_html ([BQUOTE] ++ x ++ [BQUOTE]))
  = py "<code>" ++ x ++ py "</code>".
Proof.
  intros L S.
  pose proof (@safe_neqc LBRA x (ltac:(auto 10)) S) as K1.
  pose proof (@safe_neqc BQUOTE x (ltac:(auto 10)) S) as K2.
  pose proof (@safe_neqc STAR x (ltac:(auto 10)) S) as K3.
  pose proof (@safe_neqc TILDE x (ltac:(auto 10)) S) as K4.
  rewrite !escape_html_app, (safe_escape _ S).
  change (escape_html [BQUOTE]) with [BQUOTE].
  unfold inline_parse.
  rewrite sub_image_id, sub_link_id by spans_free K1.
  assert (C : sub_code ([BQUOTE] ++ x ++ [BQUOTE])
              = py "<code>" ++ x ++ py "</code>").
  { unfold sub_code. apply re_sub_whole; [discriminate|].
    unfold wrap, INLINE_CODE_RE. cbn [app].
    change (eqc BQUOTE BQUOTE) with true. cbv iota.
    rewrite (@span_app_exact _ _ BQUOTE [] K2) by reflexivity.
    destruct x; [discriminate | reflexivity]. }
  rewrite C, sub_bold_id, sub_italic_id, sub_strike_id
    by spans_free K3 || spans_free K4.
  reflexivity.
Qed.

(** X9.  A text without markup of its own, between two pairs of asterisks,
    two asterisks, two pairs of tildes or two backticks, is rendered
    between the tags of [strong], [em], [del] and [code]. *)
Theorem inline_spans (x : str) :
  (0 <? length x) = true -> forallb safe x = true ->
  inline_parse (escape_html ([STAR; STAR] ++ x ++ [STAR; STAR]))
  = py "<strong>" ++ x ++ py "</strong>"
  /\ inline_parse (escape_html ([STAR] ++ x ++ [STAR]))
     = py "<em>" ++ x ++ py "</em>"
  /\ inline_parse (escape_html ([TILDE; TILDE] ++ x ++ [TILDE; TILDE]))
     = py "<del>" ++ x ++ py "</del>"
  /\ inline_parse (escape_html ([BQUOTE] ++ x ++ [BQUOTE]))
     = py "<code>" ++ x ++ py "</code>".
Proof.
  intros L S. repeat split.
  - apply inline_parse_bold; assumption.
  - apply inline_parse_italic; assumption.
  - apply inline_parse_strike; assumption.
  - apply inline_parse_code; assumption.
Qed.

Lemma inline_spans_witness :
  inline_parse (escape_html ([STAR; STAR] ++ py "so it is" ++ [STAR; STAR]))
  = py "<strong>" ++ py "so it is" ++ py "</strong>"
  /\ inline_parse (escape_html ([STAR] ++ py "so it is" ++ [STAR]))
     = py "<em>" ++ py "so it is" ++ py "</em>"
  /\ inline_parse (escape_html ([TILDE; TILDE] ++ py "so it is"
                                ++ [TILDE; TILDE]))
     = py "<del>" ++ py "so it is" ++ py "</del>"
  /\ inline_parse (escape_html ([BQUOTE] ++ py "so it is" ++ [BQUOTE]))
     = py "<code>" ++ py "so it is" ++ py "</code>".
Proof.
  apply (@inline_spans (py "so it is")); vm_compute; reflexivity.
Defined.

(** ** Trimmed text *)

Lemma rstrip_by_idem (p : char -> bool) (s : str) :
  rstrip_by p (rstrip_by p s) = rstrip_by p s.
Proof.
  induction s as [|c s IH]; [reflexivity|].
  cbn [rstrip_by]. destruct (rstrip_by p s) as [|d r] eqn:R.
  - destruct (p c) eqn:P; [reflexivity|]. cbn [rstrip_by]. rewrite P.
    reflexivity.
  - cbn [rstrip_by] in *. rewrite IH. reflexivity.
Qed.

Lemma lstrip_by_head (p : char -> bool) (s : str) (c : char) (t : str) :
  lstrip_by p s = c :: t -> p c = false.
Proof.
  induction s as [|d s IH]; simpl; [discriminate|].
  destruct (p d) eqn:P; [exact IH|]. intros H. inversion H; subst. exact P.
Qed.

Lemma lstrip_by_fixed (p : char -> bool) (c : char) (t : str) :
  p c = false -> lstrip_by p (c :: t) = c :: t.
Proof. intros P. simpl. rewrite P. reflexivity. Qed.

Lemma rstrip_by_keeps_head (p : char -> bool) (c : char) (t : str) :
  p c = false -> exists r, rstrip_by p (c :: t) = c :: r.
Proof.
  intros P. cbn [rstrip_by]. destruct (rstrip_by p t); [|eauto].
  rewrite P. eauto.
Qed.

Lemma lstrip_rstrip_lstrip (s : str) :
  lstrip (rstrip (lstrip s)) = rstrip (lstrip s).
Proof.
  unfold lstrip, rstrip. destruct (lstrip_by isspace s) as [|c t] eqn:L.
  - reflexivity.
  - pose proof (lstrip_by_head _ _ L) as P.
    destruct (@rstrip_by_keeps_head isspace c t P) as [r R]. rewrite R.
    apply lstrip_by_fixed. exact P.
Qed.

Lemma strip_idem (s : str) : strip (strip s) = strip s.
Proof.
  unfold strip, strip_by. fold lstrip rstrip.
  rewrite lstrip_rstrip_lstrip. apply rstrip_by_idem.
Qed.

Lemma strip_fixed (x : str) : strip x = x -> lstrip x = x /\ rstrip x = x.
Proof.
  intros H. split.
  - rewrite <- H at 1. unfold strip, strip_by. fold lstrip rstrip.
    rewrite lstrip_rstrip_lstrip. exact H.
  - rewrite <- H at 1. unfold strip, strip_by, rstrip.
    rewrite rstrip_by_idem. exact H.
Qed.

(** X10.  The cells of a table row are trimmed: no cell starts or ends with
    white space. *)
Theorem row_cells_trimmed (line : str) :
  Forall (fun cell => strip cell = cell) (row_cells line).
Proof.
  unfold row_cells. apply Forall_map. apply Forall_forall.
  intros c _. apply strip_idem.
Qed.

(** ** Headings *)

Lemma forallb_repeat (p : char -> bool) (c : char) (n : nat) :
  p c = true -> forallb p (repeat c n) = true.
Proof.
  intros P. induction n as [|n IH]; simpl; [reflexivity|].
  rewrite P, IH. reflexivity.
Qed.

Lemma lead_not_fence (s : str) (c : char) :
  lead s = Some c -> c <> BQUOTE -> FENCE_RE s = None.
Proof.
  intros L N. destruct (FENCE_RE s) as [g|] eqn:F; [|reflexivity].
  apply FENCE_lead in F. congruence.
Qed.

Lemma not_blank_of_head (c : char) (t : str) :
  isspace c = false -> (length (strip (c :: t)) =? 0) = false.
Proof.
  intros P. destruct (length (strip (c :: t)) =? 0) eqn:B; [|reflexivity].
  apply Nat.eqb_eq in B. apply length_zero_iff_nil in B.
  apply strip_nil in B. simpl in B. rewrite P in B. discriminate.
Qed.

Lemma safe_plain (x : str) :
  forallb safe x = true -> forallb plain_char x = true.
Proof. apply safe_is. intros c H. apply safe_parts in H. apply H. Qed.

Lemma inline_parse_safe (x : str) :
  forallb safe x = true -> inline_parse (escape_html x) = x.
Proof.
  intros S. rewrite (safe_escape _ S). apply inline_parse_plain, safe_plain, S.
Qed.

Lemma HEADING_RE_line (k : nat) (x : str) :
  (1 <=? k) && (k <=? 6) = true ->
  lstrip x = x -> forallb (neqc NL) x = true ->
  HEADING_RE (repeat HASH k ++ SP :: x) = Some (repeat HASH k, x).
Proof.
  intros K L N. apply andb_true_iff in K. destruct K as [K1 K2].
  apply Nat.leb_le in K1. apply Nat.leb_le in K2.
  unfold HEADING_RE.
  rewrite (@span_app_exact (eqc HASH) (repeat HASH k) SP x)
    by (reflexivity || (apply forallb_repeat; reflexivity)).
  destruct k as [|k]; [lia|]. cbn [repeat].
  change (HASH :: repeat HASH k) with (repeat HASH (S k)).
  rewrite firstn_all2, skipn_all2 by (rewrite repeat_length; lia).
  cbn [app]. unfold lstrip in *. cbn [lstrip_by].
  change (isspace SP) with true. cbv iota. rewrite L.
  unfold dot_star. rewrite (span_all _ _ N). reflexivity.
Qed.

(** X11.  A line of one to six ["#"], a space and a trimmed text without
    markup is a heading of that level with that text; it sets the title
    when no title is set yet. *)
Theorem heading_line (k : nat) (x : str) (rest : list str) (st : state) :
  inside_code st = false ->
  (1 <=? k) && (k <=? 6) = true ->
  (0 <? length x) = true ->
  forallb safe x = true ->
  strip x = x ->
  step (repeat HASH k ++ SP :: x) rest st
  = Some (rest,
          append_html
            (py "<h" ++ str_of_nat k ++ py ">" ++ x ++ py "</h"
             ++ str_of_nat k ++ py ">")
            (if negb (truthy (title st)) then set_title (Some x) st else st)).
Proof.
  intros IC K L S T. destruct (@strip_fixed x T) as [TL TR].
  assert (K' := K). apply andb_true_iff in K'. destruct K' as [K1 _].
  apply Nat.leb_le in K1.
  assert (R : rstrip (repeat HASH k ++ SP :: x) = repeat HASH k ++ SP :: x).
  { unfold rstrip in *. rewrite rstrip_by_over_app.
    assert (Q : rstrip_by isspace (SP :: x) = SP :: x).
    { change (rstrip_by isspace (SP :: x))
        with (match rstrip_by isspace x with
              | [] => if isspace SP then [] else [SP]
              | r => SP :: r
              end).
      rewrite TR. destruct x; [discriminate | reflexivity]. }
    rewrite Q. reflexivity. }
  unfold step. rewrite R.
  assert (Hd : exists t, repeat HASH k ++ SP :: x = HASH :: t).
  { destruct k; [lia|]. cbn. eauto. }
  destruct Hd as [t Hd].
  assert (F : FENCE_RE (repeat HASH k ++ SP :: x) = None).
  { apply (@lead_not_fence _ HASH); [|discriminate].
    rewrite Hd. reflexivity. }
  rewrite F, IC.
  assert (B : (length (strip (repeat HASH k ++ SP :: x)) =? 0) = false).
  { rewrite Hd. apply not_blank_of_head. reflexivity. }
  rewrite B, (@HEADING_RE_line k x K TL (safe_no_nl _ S)).
  rewrite T, (inline_parse_safe _ S), repeat_length. reflexivity.
Qed.

Lemma heading_line_witness :
  step (repeat HASH 3 ++ SP :: py "Hello") [py "text"] init_state
  = Some ([py "text"],
          append_html
            (py "<h" ++ str_of_nat 3 ++ py ">" ++ py "Hello" ++ py "</h"
             ++ str_of_nat 3 ++ py ">")
            (if negb (truthy (title init_state))
             then set_title (Some (py "Hello")) init_state
             else init_state)).
Proof.
  apply (@heading_line 3 (py "Hello") [py "text"] init_state);
    vm_compute; reflexivity.
Defined.

(** ** Flat lists *)

Lemma span_snd_lstrip (p : char -> bool) (s : str) :
  snd (span p s) = lstrip_by p s.
Proof.
  induction s as [|c s IH]; simpl; [reflexivity|].
  destruct (p c); [|reflexivity]. destruct (span p s). exact IH.
Qed.

Lemma lstrip_by_idem (p : char -> bool) (s : str) :
  lstrip_by p (lstrip_by p s) = lstrip_by p s.
Proof.
  destruct (lstrip_by p s) as [|c t] eqn:L; [reflexivity|].
  apply lstrip_by_fixed. apply (lstrip_by_head _ _ L).
Qed.

Lemma forallb_rstrip_by (q p : char -> bool) (s : str) :
  forallb q s = true -> forallb q (rstrip_by p s) = true.
Proof.
  intros H. destruct (rstrip_by_app p s) as [w [E _]].
  rewrite E, forallb_app in H. apply andb_true_iff in H. apply H.
Qed.

Lemma forallb_strip (q : char -> bool) (s : str) :
  forallb q s = true -> forallb q (strip s) = true.
Proof.
  intros H. unfold strip, strip_by.
  apply forallb_rstrip_by, forallb_lstrip_by, H.
Qed.

Lemma bullet_cases (m : char) :
  bullet m = true -> m = DASH \/ m = PLUS \/ m = STAR.
Proof.
  unfold bullet. intros H.
  destruct (eqc DASH m) eqn:E1; [left; apply eqc_true; exact E1|].
  destruct (eqc PLUS m) eqn:E2; [right; left; apply eqc_true; exact E2|].
  destruct (eqc STAR m) eqn:E3; [right; right; apply eqc_true; exact E3|].
  discriminate.
Qed.

Lemma bullet_not_space (m : char) : bullet m = true -> isspace m = false.
Proof.
  intros H. destruct (@bullet_cases m H) as [->|[->| ->]]; reflexivity.
Qed.

Lemma UL_item_line (m : char) (x : str) :
  bullet m = true -> forallb (neqc NL) x = true ->
  UL_ITEM_RE (item_line m x) = Some (lstrip x).
Proof.
  intros B N. unfold UL_ITEM_RE, item_line, lstrip.
  rewrite lstrip_by_fixed by (apply bullet_not_space; exact B).
  unfold bullet in B. rewrite B. cbn [span].
  change (isspace SP) with true. cbv iota.
  pose proof (span_snd_lstrip isspace x) as Q.
  destruct (span isspace x) as [a b]. cbn [snd] in Q. subst b.
  unfold dot_star.
  rewrite (span_all _ _ (forallb_lstrip_by _ isspace _ N)). reflexivity.
Qed.

Lemma list_match_item_line (m : char) (x : str) :
  bullet m = true -> forallb (neqc NL) x = true ->
  _list_match (item_line m x) = Some (ul, 0, strip x).
Proof.
  intros B N. unfold _list_match. rewrite (@UL_item_line m x B N).
  unfold item_line. cbn [span]. rewrite (@bullet_not_space m B).
  cbn [fst expandtabs expandtabs_from length].
  unfold strip, strip_by, lstrip. rewrite lstrip_by_idem. reflexivity.
Qed.

Lemma li_strip (x : str) :
  forallb safe x = true -> li (strip x) = py "<li>" ++ strip x.
Proof.
  intros S. unfold li. rewrite inline_parse_safe; [reflexivity|].
  apply forallb_strip, S.
Qed.

Lemma open_li_not_closed (y : str) :
  forallb safe y = true -> endswith (py "<li>" ++ y) (py "</li>") = false.
Proof.
  intros S. unfold endswith, startswith. rewrite rev_app_distr.
  assert (R : forallb safe (rev y) = true).
  { rewrite forallb_forall in *. intros c I. apply S, in_rev, I. }
  destruct (rev y) as [|c t]; [reflexivity|].
  simpl in R. apply andb_true_iff in R. destruct R as [R _].
  apply safe_parts in R. destruct R as (_ & _ & _ & R).
  unfold special in R. apply orb_false_iff in R. destruct R as [_ R].
  unfold eqc in R.
  change (rev (py "</li>")) with [GT; 105; 108; 47; LT]%N.
  cbn [app strip_prefix]. rewrite N.eqb_sym, R. reflexivity.
Qed.

Lemma close_open_li (h : list str) (y : str) :
  forallb safe y = true -> rstrip y = y ->
  close_inline_li (h ++ [py "<li>" ++ y]) = h ++ [closed_li y].
Proof.
  intros S R. rewrite close_inline_li_app by discriminate. f_equal.
  unfold close_inline_li. cbn [last_line].
  rewrite (@open_li_not_closed y S). cbn [negb].
  unfold set_last. cbn [removelast app]. unfold closed_li, rstrip in *.
  rewrite rstrip_by_over_app, R.
  destruct y; [reflexivity|]. rewrite <- app_assoc. reflexivity.
Qed.

Lemma safe_line_no_nl (x : str) :
  forallb safe x = true -> forallb (neqc NL) x = true.
Proof. apply safe_no_nl. Qed.

(** The inner loop on the items that follow the first one. *)
Lemma flat_list_loop (m : char) (rest : list str) :
  bullet m = true -> ends_run list_item rest = true ->
  forall xs y h,
    forallb (forallb safe) xs = true ->
    forallb safe y = true -> rstrip y = y ->
    exists h',
      list_loop (map (item_line m) xs ++ rest) [(0, ul)]
        (h ++ [py "<li>" ++ y])
      = Some (rest, [(0, ul)], h')
      /\ close_inline_li h' = h ++ map closed_li (y :: map strip xs).
Proof.
  intros B E. induction xs as [|x xs IH]; intros y h F S R.
  - cbn [map app]. exists (h ++ [py "<li>" ++ y]).
    split; [|apply close_open_li; assumption].
    destruct rest as [|l rest]; [reflexivity|].
    cbn [ends_run] in E. unfold list_item in E. apply negb_true_iff in E.
    cbn [list_loop]. rewrite E. reflexivity.
  - simpl in F. apply andb_true_iff in F. destruct F as [F1 F2].
    pose proof (@safe_line_no_nl x F1) as N.
    cbn [map app list_loop].
    rewrite (@UL_item_line m x B N), (@list_match_item_line m x B N).
    cbn [matches orb negb Nat.ltb Nat.leb Nat.eqb].
    pose proof (@close_open_li h y S R) as Q1.
    pose proof (@li_strip x F1) as Q2. unfold str in *.
    rewrite Q1, Q2. clear Q1 Q2.
    destruct (IH (strip x) (h ++ [closed_li y]) F2) as (h' & L & C).
    + apply forallb_strip, F1.
    + unfold strip, strip_by, rstrip. apply rstrip_by_idem.
    + exists h'. split; [exact L|]. rewrite C, <- app_assoc. reflexivity.
Qed.

Lemma not_blank_rstrip (x : str) :
  blank_line x = false -> exists c r, rstrip x = c :: r.
Proof.
  intros B. unfold rstrip. destruct (rstrip_by isspace x) as [|c r] eqn:R;
    [|eauto].
  exfalso. apply rstrip_by_nil in R.
  assert (Z : strip x = []).
  { unfold strip, strip_by. apply forallb_rstrip_by_nil.
    apply forallb_lstrip_by. exact R. }
  unfold blank_line in B. rewrite Z in B. discriminate.
Qed.

(** X12.  A run of unordered items at the left margin, with one marker and
    one space before texts without markup, is one list: ["<ul>"], one closed
    item per line with its text trimmed, ["</ul>"]. *)
Theorem flat_list
  (m : char) (x0 : str) (xs rest : list str) (st : state) :
  inside_code st = false ->
  bullet m = true ->
  blank_line x0 = false ->
  forallb (forallb safe) (x0 :: xs) = true ->
  ends_run list_item rest = true ->
  step (item_line m x0) (map (item_line m) xs ++ rest) st
  = Some (rest,
          set_html_lines
            (html_lines st
             ++ [py "<ul>"]
             ++ map (fun x => closed_li (strip x)) (x0 :: xs)
             ++ [py "</ul>"]) st).
Proof.
  intros IC B NB F E.
  simpl in F. apply andb_true_iff in F. destruct F as [F0 F].
  pose proof (@safe_line_no_nl x0 F0) as N0.
  pose proof (@bullet_not_space m B) as MS.
  destruct (@not_blank_rstrip x0 NB) as (c & r & Rx).
  assert (R : rstrip (item_line m x0) = m :: SP :: c :: r).
  { unfold rstrip, item_line in *. cbn [rstrip_by]. rewrite Rx. reflexivity. }
  unfold step. rewrite R.
  assert (Fe : FENCE_RE (m :: SP :: c :: r) = None).
  { apply (@lead_not_fence _ m).
    - unfold lead, lstrip. rewrite lstrip_by_fixed by exact MS. reflexivity.
    - destruct (@bullet_cases m B) as [->|[->| ->]]; discriminate. }
  rewrite Fe, IC, (@not_blank_of_head m (SP :: c :: r) MS).
  assert (Hh : HEADING_RE (m :: SP :: c :: r) = None).
  { destruct (HEADING_RE (m :: SP :: c :: r)) eqn:H; [|reflexivity].
    assert (M : matches (HEADING_RE (m :: SP :: c :: r)) = true)
      by (rewrite H; reflexivity).
    apply HEADING_hd in M. inversion M; subst. discriminate. }
  rewrite Hh.
  assert (U : matches (UL_ITEM_RE (m :: SP :: c :: r)) = true).
  { unfold UL_ITEM_RE, lstrip. rewrite lstrip_by_fixed by exact MS.
    assert (B' := B). unfold bullet in B'. rewrite B'. cbn [span].
    change (isspace SP) with true. cbv iota.
    destruct (isspace c); [destruct (span isspace r)|]; reflexivity. }
  rewrite U. cbn [orb list_loop].
  rewrite (@UL_item_line m x0 B N0), (@list_match_item_line m x0 B N0).
  cbn [matches orb negb]. rewrite (@li_strip x0 F0).
  destruct (@flat_list_loop m rest B E xs (strip x0)
              (html_lines st ++ [open_tag ul]) F) as (h' & L & C).
  - apply forallb_strip, F0.
  - unfold strip, strip_by, rstrip. apply rstrip_by_idem.
  - unfold str in *. rewrite L, C. cbn [close_lists]. f_equal. f_equal.
    f_equal.
    rewrite <- !app_assoc. cbn [map app]. rewrite map_map. reflexivity.
Qed.

Lemma flat_list_witness :
  step (item_line DASH (py "one ")) (map (item_line DASH) [py " two"; py "3"]
                                     ++ [py "text"]) init_state
  = Some ([py "text"],
          set_html_lines
            (html_lines init_state
             ++ [py "<ul>"]
             ++ map (fun x => closed_li (strip x))
                  (py "one " :: [py " two"; py "3"])
             ++ [py "</ul>"]) init_state).
Proof.
  apply (@flat_list DASH (py "one ") [py " two"; py "3"] [py "text"]
           init_state); vm_compute; reflexivity.
Defined.

(** ** Horizontal rules *)






Lemma HEADING_RE_no_hash (c : char) (t : str) :
  eqc HASH c = false -> HEADING_RE (c :: t) = None.
Proof.
  intros H. unfold HEADING_RE. cbn [span]. rewrite H. reflexivity.
Qed.




(** ** Blockquotes *)









(** ** Markers without a partner, markers inside code spans *)

Lemma re_sub_app_free (m : str -> option (str * str)) (k : char) (s : str) :
  (forall c t, neqc k c = true -> m (c :: t) = None) ->
  forall p, forallb (neqc k) p = true -> re_sub m (p ++ s) = p ++ re_sub m s.
Proof.
  intros M. induction p as [|c p IH]; intros F; [reflexivity|].
  simpl in F. apply andb_true_iff in F. destruct F as [F1 F2].
  cbn [app]. rewrite re_sub_skip by (apply M; exact F1).
  rewrite (IH F2). reflexivity.
Qed.

Lemma sub_from_skip_prefix (m : str -> option (str * str)) (rest : str) :
  forall a, sub_from m (length a) (a ++ rest) = sub_from m 0 rest.
Proof.
  induction a as [|c a IH]; [reflexivity|].
  cbn [length app sub_from]. exact IH.
Qed.

(** After a match the substitution goes on behind it. *)
Lemma re_sub_match (m : str -> option (str * str)) (c : char)
  (s1 rest out : str) :
  m (c :: s1 ++ rest) = Some (out, rest) ->
  re_sub m (c :: s1 ++ rest) = out ++ re_sub m rest.
Proof.
  intros M. unfold re_sub. cbn [sub_from]. rewrite M.
  replace (length (s1 ++ rest) - length rest) with (length s1)
    by (rewrite length_app; lia).
  rewrite sub_from_skip_prefix. reflexivity.
Qed.

Lemma lazy_dot_star_rest (k : char) (lit rest x : str) :
  forallb (neqc k) x = true -> forallb (neqc NL) x = true ->
  lazy_dot_star (k :: lit) (x ++ (k :: lit) ++ rest) = Some (x, rest).
Proof.
  induction x as [|d x IH]; intros K N.
  - cbn [app lazy_dot_star].
    change (k :: lit ++ rest) with ((k :: lit) ++ rest).
    rewrite strip_prefix_refl. reflexivity.
  - simpl in K, N. apply andb_true_iff in K. destruct K as [K1 K2].
    apply andb_true_iff in N. destruct N as [N1 N2].
    apply neqc_eqc in K1. apply neqc_eqc in N1. unfold eqc in K1.
    change ((d :: x) ++ (k :: lit) ++ rest)
      with (d :: (x ++ (k :: lit) ++ rest)).
    cbn [lazy_dot_star strip_prefix]. rewrite N.eqb_sym, K1, N1.
    rewrite (IH K2 N2). reflexivity.
Qed.

Lemma lazy_dot_star_none (k : char) (lit t : str) :
  forallb (neqc k) t = true -> lazy_dot_star (k :: lit) t = None.
Proof.
  induction t as [|d t IH]; intros K; [reflexivity|].
  simpl in K. apply andb_true_iff in K. destruct K as [K1 K2].
  apply neqc_eqc in K1. unfold eqc in K1.
  cbn [lazy_dot_star strip_prefix]. rewrite N.eqb_sym, K1.
  destruct (eqc NL d); [reflexivity|]. rewrite (IH K2). reflexivity.
Qed.

Lemma wrap_none (tag : string) (re : str -> option (str * str)) (s : str) :
  re s = None -> wrap tag re s = None.
Proof. intros H. unfold wrap. rewrite H. reflexivity. Qed.

Lemma BOLD_RE_one_star (y : str) :
  forallb (neqc STAR) y = true -> BOLD_RE (STAR :: y) = None.
Proof.
  intros K. unfold BOLD_RE, delimited. destruct y as [|c y]; [reflexivity|].
  simpl in K. apply andb_true_iff in K. destruct K as [K _].
  apply neqc_eqc in K. unfold eqc in K.
  cbn [strip_prefix]. change (N.eqb STAR STAR) with true. cbv iota.
  rewrite N.eqb_sym, K. reflexivity.
Qed.

Lemma BOLD_RE_star_then (c : char) (t : str) :
  neqc STAR c = true -> BOLD_RE (STAR :: c :: t) = None.
Proof.
  intros K. apply neqc_eqc in K. unfold eqc in K.
  unfold BOLD_RE, delimited. cbn [strip_prefix].
  change (N.eqb STAR STAR) with true. cbv iota.
  rewrite N.eqb_sym, K. reflexivity.
Qed.

Lemma sub_bold_star (y : str) :
  forallb (neqc STAR) y = true -> sub_bold (STAR :: y) = STAR :: y.
Proof.
  intros K. unfold sub_bold.
  rewrite re_sub_skip by (apply wrap_none, BOLD_RE_one_star; exact K).
  fold sub_bold. rewrite (sub_bold_id _ K). reflexivity.
Qed.

Lemma sub_italic_star (y : str) :
  forallb (neqc STAR) y = true -> sub_italic (STAR :: y) = STAR :: y.
Proof.
  intros K. unfold sub_italic. rewrite re_sub_skip.
  - fold sub_italic. rewrite (sub_italic_id _ K). reflexivity.
  - apply wrap_none. unfold ITALIC_RE, delimited. cbn [strip_prefix].
    change (N.eqb STAR STAR) with true. cbv iota.
    unfold lazy_dot_plus. destruct y as [|c y]; [reflexivity|].
    destruct (eqc NL c); [reflexivity|].
    simpl in K. apply andb_true_iff in K. destruct K as [_ K].
    rewrite (@lazy_dot_star_none STAR [] y K). reflexivity.
Qed.

Lemma bold_first (c : char) (t : str) :
  neqc STAR c = true -> wrap "strong" BOLD_RE (c :: t) = None.
Proof.
  intros K. apply wrap_none. unfold BOLD_RE.
  apply (@delimited_first STAR [STAR] [STAR; STAR] c t K).
Qed.

Lemma italic_first (c : char) (t : str) :
  neqc STAR c = true -> wrap "em" ITALIC_RE (c :: t) = None.
Proof.
  intros K. apply wrap_none. unfold ITALIC_RE.
  apply (@delimited_first STAR [] [STAR] c t K).
Qed.

(** X15.  An asterisk without a partner in a text without other markup is
    left as it is. *)
Theorem lone_asterisk (x y : str) :
  forallb safe x = true -> forallb safe y = true ->
  inline_parse (escape_html (x ++ [STAR] ++ y)) = x ++ [STAR] ++ y.
Proof.
  intros Sx Sy.
  pose proof (@safe_neqc LBRA x (ltac:(auto 10)) Sx) as X1.
  pose proof (@safe_neqc BQUOTE x (ltac:(auto 10)) Sx) as X2.
  pose proof (@safe_neqc STAR x (ltac:(auto 10)) Sx) as X3.
  pose proof (@safe_neqc TILDE x (ltac:(auto 10)) Sx) as X4.
  pose proof (@safe_neqc LBRA y (ltac:(auto 10)) Sy) as Y1.
  pose proof (@safe_neqc BQUOTE y (ltac:(auto 10)) Sy) as Y2.
  pose proof (@safe_neqc STAR y (ltac:(auto 10)) Sy) as Y3.
  pose proof (@safe_neqc TILDE y (ltac:(auto 10)) Sy) as Y4.
  rewrite !escape_html_app, (safe_escape _ Sx), (safe_escape _ Sy).
  change (escape_html [STAR]) with [STAR].
  unfold inline_parse.
  rewrite sub_image_id, sub_link_id, sub_code_id
    by (rewrite !forallb_app, ?X1, ?X2, ?Y1, ?Y2; reflexivity).
  cbn [app].
  assert (B : sub_bold (x ++ STAR :: y) = x ++ STAR :: y).
  { unfold sub_bold.
    rewrite (@re_sub_app_free (wrap "strong" BOLD_RE) STAR (STAR :: y)
               bold_first x X3).
    fold sub_bold. rewrite (sub_bold_star _ Y3). reflexivity. }
  rewrite B.
  assert (I : sub_italic (x ++ STAR :: y) = x ++ STAR :: y).
  { unfold sub_italic.
    rewrite (@re_sub_app_free (wrap "em" ITALIC_RE) STAR (STAR :: y)
               italic_first x X3).
    fold sub_italic. rewrite (sub_italic_star _ Y3). reflexivity. }
  rewrite I. apply sub_strike_id.
  rewrite forallb_app. cbn [forallb]. rewrite X4, Y4. reflexivity.
Qed.

Lemma lone_asterisk_witness :
  inline_parse (escape_html (py "2 " ++ [STAR] ++ py " 3 = 6"))
  = py "2 " ++ [STAR] ++ py " 3 = 6".
Proof.
  apply (@lone_asterisk (py "2 ") (py " 3 = 6")); vm_compute; reflexivity.
Defined.

Lemma sub_code_whole (x : str) :
  (0 <? length x) = true -> forallb (neqc BQUOTE) x = true ->
  sub_code (BQUOTE :: x ++ [BQUOTE]) = py "<code>" ++ x ++ py "</code>".
Proof.
  intros L K. unfold sub_code. apply re_sub_whole; [discriminate|].
  unfold wrap, INLINE_CODE_RE.
  change (eqc BQUOTE BQUOTE) with true. cbv iota.
  rewrite (@span_app_exact _ _ BQUOTE [] K) by reflexivity.
  destruct x; [discriminate | reflexivity].
Qed.

Lemma ITALIC_RE_span (b rest : str) :
  (0 <? length b) = true ->
  forallb (neqc STAR) b = true -> forallb (neqc NL) b = true ->
  wrap "em" ITALIC_RE (STAR :: (b ++ [STAR]) ++ rest)
  = Some (py "<em>" ++ b ++ py "</em>", rest).
Proof.
  intros L K N. unfold wrap, ITALIC_RE, delimited. cbn [strip_prefix].
  change (N.eqb STAR STAR) with true. cbv iota.
  destruct b as [|d b]; [discriminate|].
  simpl in K, N. apply andb_true_iff in K. destruct K as [K1 K2].
  apply andb_true_iff in N. destruct N as [N1 N2].
  rewrite <- app_assoc. cbn [app lazy_dot_plus]. rewrite (neqc_eqc _ _ N1).
  change (b ++ STAR :: rest) with (b ++ [STAR] ++ rest).
  rewrite (@lazy_dot_star_rest STAR [] rest b K2 N2). reflexivity.
Qed.

(** X16.  A code span does not shield its content from the later passes: a
    pair of asterisks inside it is rendered as emphasis within the [code]
    element. *)
Theorem code_span_not_shielded (a b c : str) :
  (0 <? length b) = true ->
  forallb safe a = true -> forallb safe b = true -> forallb safe c = true ->
  inline_parse
    (escape_html ([BQUOTE] ++ a ++ [STAR] ++ b ++ [STAR] ++ c ++ [BQUOTE]))
  = py "<code>" ++ a ++ py "<em>" ++ b ++ py "</em>" ++ c ++ py "</code>".
Proof.
  intros L Sa Sb Sc.
  pose proof (@safe_neqc LBRA a (ltac:(auto 10)) Sa) as A1.
  pose proof (@safe_neqc BQUOTE a (ltac:(auto 10)) Sa) as A2.
  pose proof (@safe_neqc STAR a (ltac:(auto 10)) Sa) as A3.
  pose proof (@safe_neqc TILDE a (ltac:(auto 10)) Sa) as A4.
  pose proof (@safe_neqc LBRA b (ltac:(auto 10)) Sb) as B1.
  pose proof (@safe_neqc BQUOTE b (ltac:(auto 10)) Sb) as B2.
  pose proof (@safe_neqc STAR b (ltac:(auto 10)) Sb) as B3.
  pose proof (@safe_neqc TILDE b (ltac:(auto 10)) Sb) as B4.
  pose proof (@safe_neqc LBRA c (ltac:(auto 10)) Sc) as C1.
  pose proof (@safe_neqc BQUOTE c (ltac:(auto 10)) Sc) as C2.
  pose proof (@safe_neqc STAR c (ltac:(auto 10)) Sc) as C3.
  pose proof (@safe_neqc TILDE c (ltac:(auto 10)) Sc) as C4.
  rewrite !escape_html_app, (safe_escape _ Sa), (safe_escape _ Sb),
    (safe_escape _ Sc).
  change (escape_html [STAR]) with [STAR].
  change (escape_html [BQUOTE]) with [BQUOTE].
  unfold inline_parse.
  rewrite sub_image_id, sub_link_id
    by (rewrite !forallb_app, ?A1, ?B1, ?C1; reflexivity).
  assert (Sh : [BQUOTE] ++ a ++ [STAR] ++ b ++ [STAR] ++ c ++ [BQUOTE]
               = BQUOTE :: (a ++ [STAR] ++ b ++ [STAR] ++ c) ++ [BQUOTE]).
  { cbn [app]. repeat (rewrite <- app_assoc; cbn [app]). reflexivity. }
  rewrite Sh, sub_code_whole.
  2:{ rewrite length_app. cbn [app length]. apply Nat.ltb_lt. lia. }
  2:{ rewrite !forallb_app, A2, B2, C2. reflexivity. }
  set (P := py "<code>" ++ a). set (Q := c ++ py "</code>").
  assert (T : py "<code>" ++ (a ++ [STAR] ++ b ++ [STAR] ++ c) ++ py "</code>"
              = P ++ STAR :: b ++ STAR :: Q).
  { unfold P, Q. repeat (rewrite <- app_assoc; cbn [app]). reflexivity. }
  rewrite T.
  assert (KP : forallb (neqc STAR) P = true)
    by (unfold P; rewrite forallb_app, A3; reflexivity).
  assert (KQ : forallb (neqc STAR) Q = true)
    by (unfold Q; rewrite forallb_app, C3; reflexivity).
  assert (Bd : sub_bold (P ++ STAR :: b ++ STAR :: Q)
               = P ++ STAR :: b ++ STAR :: Q).
  { unfold sub_bold.
    rewrite (@re_sub_app_free (wrap "strong" BOLD_RE) STAR
               (STAR :: b ++ STAR :: Q) bold_first P KP).
    destruct b as [|d b]; [discriminate|].
    assert (B3' := B3). simpl in B3'. apply andb_true_iff in B3'.
    destruct B3' as [D _].
    cbn [app]. rewrite re_sub_skip
      by (apply wrap_none, BOLD_RE_star_then; exact D).
    change (d :: b ++ STAR :: Q) with ((d :: b) ++ STAR :: Q).
    rewrite (@re_sub_app_free (wrap "strong" BOLD_RE) STAR (STAR :: Q)
               bold_first (d :: b) B3).
    fold sub_bold. rewrite (sub_bold_star _ KQ). reflexivity. }
  rewrite Bd.
  assert (It : sub_italic (P ++ STAR :: b ++ STAR :: Q)
               = P ++ py "<em>" ++ b ++ py "</em>" ++ Q).
  { unfold sub_italic.
    rewrite (@re_sub_app_free (wrap "em" ITALIC_RE) STAR
               (STAR :: b ++ STAR :: Q) italic_first P KP).
    change (STAR :: b ++ STAR :: Q) with (STAR :: b ++ [STAR] ++ Q).
    rewrite (app_assoc b [STAR] Q).
    rewrite (@re_sub_match (wrap "em" ITALIC_RE) STAR (b ++ [STAR]) Q
               (py "<em>" ++ b ++ py "</em>")
               (@ITALIC_RE_span b Q L B3 (safe_no_nl _ Sb))).
    fold sub_italic. rewrite (sub_italic_id _ KQ).
    repeat (rewrite <- app_assoc; cbn [app]). reflexivity. }
  rewrite It.
  rewrite sub_strike_id.
  - unfold P, Q. repeat (rewrite <- app_assoc; cbn [app]). reflexivity.
  - unfold P, Q. rewrite !forallb_app, A4, B4, C4. reflexivity.
Qed.

Lemma code_span_not_shielded_witness :
  inline_parse
    (escape_html ([BQUOTE] ++ py "a" ++ [STAR] ++ py "b" ++ [STAR] ++ py "c"
                  ++ [BQUOTE]))
  = py "<code>" ++ py "a" ++ py "<em>" ++ py "b" ++ py "</em>" ++ py "c"
    ++ py "</code>".
Proof.
  apply (@code_span_not_shielded (py "a") (py "b") (py "c"));
    vm_compute; reflexivity.
Defined.

(** ** A nested list closed by a following item *)

Lemma expandtabs_spaces (k col : nat) :
  expandtabs_from 4 col (repeat SP k) = repeat SP k.
Proof.
  revert col. induction k as [|k IH]; intros col; [reflexivity|].
  cbn [repeat expandtabs_from]. change (eqc TAB SP) with false.
  change (eqc NL SP || eqc CR SP) with false. cbv iota. rewrite IH.
  reflexivity.
Qed.

Lemma lstrip_spaces (k : nat) (s : str) :
  lstrip_by isspace (repeat SP k ++ s) = lstrip_by isspace s.
Proof.
  induction k as [|k IH]; [reflexivity|].
  cbn [repeat app lstrip_by]. change (isspace SP) with true. cbv iota.
  exact IH.
Qed.

Lemma span_spaces (k : nat) (c : char) (s : str) :
  isspace c = false ->
  span isspace (repeat SP k ++ c :: s) = (repeat SP k, c :: s).
Proof.
  intros S. apply span_app_exact; [|exact S].
  apply forallb_repeat. reflexivity.
Qed.

Lemma list_match_indented (k : nat) (m : char) (x : str) :
  bullet m = true -> forallb (neqc NL) x = true ->
  matches (UL_ITEM_RE (repeat SP k ++ item_line m x)) = true
  /\ _list_match (repeat SP k ++ item_line m x) = Some (ul, k, strip x).
Proof.
  intros B N.
  assert (U : UL_ITEM_RE (repeat SP k ++ item_line m x) = Some (lstrip x)).
  { pose proof (@UL_item_line m x B N) as Q. unfold UL_ITEM_RE in *.
    unfold lstrip in *. rewrite lstrip_spaces. exact Q. }
  split; [rewrite U; reflexivity|].
  unfold _list_match. rewrite U. unfold item_line.
  rewrite (@span_spaces k m (SP :: x) (@bullet_not_space m B)).
  cbn [fst]. unfold expandtabs. rewrite expandtabs_spaces, repeat_length.
  unfold strip, strip_by, lstrip. rewrite lstrip_by_idem. reflexivity.
Qed.

Lemma rstrip_open_li (y : str) :
  rstrip y = y -> rstrip (py "<li>" ++ y) = py "<li>" ++ y.
Proof.
  intros R. unfold rstrip in *. rewrite rstrip_by_over_app, R.
  destruct y; [reflexivity|]. reflexivity.
Qed.

(** X17.  An item, an item indented by one or more spaces under it, and
    an item back at the margin: the nested list is opened inside the first
    item, and the third line closes the nested item, the nested list and the
    first item before it opens its own; every element is closed. *)
Theorem nested_list_then_item
  (m : char) (k : nat) (a b c : str) (rest : list str) (st : state) :
  inside_code st = false ->
  bullet m = true ->
  (0 <? k) = true ->
  blank_line a = false ->
  forallb (forallb safe) [a; b; c] = true ->
  ends_run list_item rest = true ->
  step (item_line m a)
    ([repeat SP k ++ item_line m b; item_line m c] ++ rest) st
  = Some (rest,
          set_html_lines
            (html_lines st
             ++ [py "<ul>";
                 py "<li>" ++ strip a ++ py "<ul>";
                 closed_li (strip b);
                 py "</ul></li>";
                 closed_li (strip c);
                 py "</ul>"]) st).
Proof.
  intros IC B K NB F E.
  cbn [forallb] in F. apply andb_true_iff in F. destruct F as [Fa F].
  apply andb_true_iff in F. destruct F as [Fb F].
  apply andb_true_iff in F. destruct F as [Fc _].
  pose proof (@safe_line_no_nl a Fa) as Na.
  pose proof (@safe_line_no_nl b Fb) as Nb.
  pose proof (@safe_line_no_nl c Fc) as Nc.
  pose proof (@bullet_not_space m B) as MS.
  destruct (@not_blank_rstrip a NB) as (d & r & Rx).
  assert (R : rstrip (item_line m a) = m :: SP :: d :: r).
  { unfold rstrip, item_line in *. cbn [rstrip_by]. rewrite Rx. reflexivity. }
  unfold step. rewrite R.
  assert (Fe : FENCE_RE (m :: SP :: d :: r) = None).
  { apply (@lead_not_fence _ m).
    - unfold lead, lstrip. rewrite lstrip_by_fixed by exact MS. reflexivity.
    - destruct (@bullet_cases m B) as [->|[->| ->]]; discriminate. }
  rewrite Fe, IC, (@not_blank_of_head m (SP :: d :: r) MS).
  rewrite (@HEADING_RE_no_hash m (SP :: d :: r))
    by (destruct (@bullet_cases m B) as [->|[->| ->]]; reflexivity).
  assert (U : matches (UL_ITEM_RE (m :: SP :: d :: r)) = true).
  { unfold UL_ITEM_RE, lstrip. rewrite lstrip_by_fixed by exact MS.
    assert (B' := B). unfold bullet in B'. rewrite B'. cbn [span].
    change (isspace SP) with true. cbv iota.
    destruct (isspace d); [destruct (span isspace r)|]; reflexivity. }
  rewrite U. cbn [orb app list_loop].
  destruct (@list_match_indented k m b B Nb) as [Ub Mb].
  rewrite (@UL_item_line m a B Na), (@list_match_item_line m a B Na).
  rewrite Ub, Mb.
  rewrite (@UL_item_line m c B Nc), (@list_match_item_line m c B Nc).
  cbn [matches orb negb]. rewrite K.
  assert (Sa : forallb safe (strip a) = true) by (apply forallb_strip, Fa).
  assert (Sb : forallb safe (strip b) = true) by (apply forallb_strip, Fb).
  assert (Sc : forallb safe (strip c) = true) by (apply forallb_strip, Fc).
  assert (Ra : rstrip (strip a) = strip a)
    by (unfold strip, strip_by, rstrip; apply rstrip_by_idem).
  assert (Rb : rstrip (strip b) = strip b)
    by (unfold strip, strip_by, rstrip; apply rstrip_by_idem).
  assert (Rc : rstrip (strip c) = strip c)
    by (unfold strip, strip_by, rstrip; apply rstrip_by_idem).
  rewrite (@li_strip a Fa), (@li_strip b Fb), (@li_strip c Fc).
  unfold str in *.
  rewrite last_line_app by discriminate. cbn [last_line].
  rewrite set_last_app by discriminate.
  unfold set_last. cbn [removelast app].
  rewrite (rstrip_open_li Ra).
  destruct k as [|k']; [discriminate|].
  cbn [Nat.ltb Nat.leb Nat.eqb].
  rewrite (@close_open_li _ (strip b) Sb Rb).
  cbn [pop_deeper Nat.ltb Nat.leb].
  rewrite close_inline_li_app by discriminate.
  change (close_inline_li [close_tag ul]) with [py "</ul></li>"].
  destruct rest as [|l rest].
  - cbn [list_loop].
    rewrite (@close_open_li _ (strip c) Sc Rc). cbn [close_lists].
    f_equal. f_equal. f_equal. rewrite <- !app_assoc. reflexivity.
  - cbn [ends_run] in E. unfold list_item in E. apply negb_true_iff in E.
    cbn [list_loop]. rewrite E. cbn [negb].
    rewrite (@close_open_li _ (strip c) Sc Rc). cbn [close_lists].
    f_equal. f_equal. f_equal. rewrite <- !app_assoc. reflexivity.
Qed.

Lemma nested_list_then_item_witness :
  step (item_line DASH (py "a"))
    ([repeat SP 2 ++ item_line DASH (py "b"); item_line DASH (py "c")]
     ++ [[]]) init_state
  = Some ([[]],
          set_html_lines
            (html_lines init_state
             ++ [py "<ul>";
                 py "<li>" ++ strip (py "a") ++ py "<ul>";
                 closed_li (strip (py "b"));
                 py "</ul></li>";
                 closed_li (strip (py "c"));
                 py "</ul>"]) init_state).
Proof.
  apply (@nested_list_then_item DASH 2 (py "a") (py "b") (py "c") [[]]
           init_state); vm_compute; reflexivity.
Defined.

(** ** The page around the body *)

Lemma count_char_app (c : char) (s t : str) :
  count_char c (s ++ t) = count_char c s + count_char c t.
Proof.
  unfold count_char. rewrite filter_app, length_app. reflexivity.
Qed.

Lemma count_char_escape (c : char) (s : str) :
  eqc LT c || eqc GT c = true -> count_char c (escape_html s) = 0.
Proof.
  intros H. induction s as [|x s IH]; [reflexivity|].
  unfold escape_html in *. cbn [flat_map]. rewrite count_char_app, IH.
  rewrite Nat.add_0_r.
  apply orb_true_iff in H.
  destruct (escape_char_cases x) as [(_ & [E|[E|E]] & _)|[S E]]; rewrite E.
  - destruct H as [H|H]; apply eqc_true in H; subst c; reflexivity.
  - destruct H as [H|H]; apply eqc_true in H; subst c; reflexivity.
  - destruct H as [H|H]; apply eqc_true in H; subst c; reflexivity.
  - unfold special in S. apply orb_false_iff in S. destruct S as [S S3].
    apply orb_false_iff in S. destruct S as [_ S2].
    unfold count_char. cbn [filter].
    destruct H as [H|H]; apply eqc_true in H; subst c.
    + unfold eqc in *. rewrite S2. reflexivity.
    + unfold eqc in *. rewrite S3. reflexivity.
Qed.

Ltac count_template :=
  repeat match goal with
         | |- context [count_char ?c (py ?s)] =>
             let v := eval vm_compute in (count_char c (py s)) in
             change (count_char c (py s)) with v
         | |- context [count_char ?c [?d]] =>
             let v := eval vm_compute in (count_char c [d]) in
             change (count_char c [d]) with v
         | |- context [count_char ?c []] =>
             change (count_char c []) with 0
         end.

Lemma count_page (c : char) (p : parsed) (css canon : option str) :
  c = LT \/ c = GT ->
  count_char c (render_full_html p css canon)
  = count_char c (p_body p) + 19 + given css + given canon.
Proof.
  intros H.
  assert (Hc : eqc LT c || eqc GT c = true)
    by (destruct H as [-> | ->]; reflexivity).
  destruct p as [t m b]. cbn [p_body].
  unfold render_full_html, page_rows, meta_tag, link_tag, attr.
  cbn [p_title p_meta p_body].
  destruct m as [|z m]; destruct css as [[|x css]|];
    destruct canon as [[|y canon]|];
    cbn [given join]; rewrite !count_char_app;
    rewrite ?count_char_escape by exact Hc;
    destruct H as [-> | ->]; count_template; lia.
Qed.

(** X18.  In the page, every ["<"] and every [">"] outside the body belongs
    to the template: the page holds those of the body, the 19 tags of the
    template, and one tag for each of the style sheet and the canonical
    address that is given and not empty.  Nothing in the title, the
    description or the two addresses adds one. *)
Theorem page_tags_from_template_and_body
  (p : parsed) (css canon : option str) :
  count_char LT (render_full_html p css canon)
  = count_char LT (p_body p) + 19 + given css + given canon
  /\ count_char GT (render_full_html p css canon)
     = count_char GT (p_body p) + 19 + given css + given canon.
Proof.
  split; apply count_page; auto.
Qed.

(** ** Where the description comes from *)

Lemma loop_meta_paragraph :
  forall fuel lines st r,
    (forall m, meta_desc st = Some m ->
               exists parsed, m = describe parsed
                 /\ In (py "<p>" ++ parsed ++ py "</p>") (html_lines st)) ->
    loop fuel lines st = Some r ->
    forall m, meta_desc r = Some m ->
              exists parsed, m = describe parsed
                /\ In (py "<p>" ++ parsed ++ py "</p>") (html_lines r).
Proof.
  induction fuel as [|fuel IH]; intros lines st r B L.
  - destruct lines; [|discriminate]. inversion L; subst. exact B.
  - destruct lines as [|raw rest]; [inversion L; subst; exact B|].
    simpl in L. destruct (step raw rest st) as [[l2 s2]|] eqn:S;
      [|discriminate].
    apply (IH l2 s2 r); [|exact L].
    destruct (step_appends _ _ _ S) as [added A].
    destruct (step_meta_cases _ _ _ S) as [E|(p & E & H)]; rewrite E.
    + intros m M. destruct (B m M) as (q & Q1 & Q2). exists q.
      split; [exact Q1|]. rewrite A. apply in_or_app. left. exact Q2.
    + intros m M. inversion M. exists p. split; [reflexivity|].
      rewrite H. apply in_or_app. right. left. reflexivity.
Qed.

(** X19.  A description that is not empty is always read off a paragraph of
    the body: the body holds a fragment ["<p>" parsed "</p>"] whose text,
    with the tags removed and cut to 160 characters, is the description.
    Headings, lists, tables and quotes never supply it. *)
Theorem description_from_paragraph (md : str) (r : parsed) :
  md_to_html md = Some r ->
  (0 <? length (p_meta r)) = true ->
  exists parsed before after,
    p_meta r = describe parsed
    /\ p_body r
       = join [NL] (before ++ [py "<p>" ++ parsed ++ py "</p>"] ++ after).
Proof.
  unfold md_to_html. intros H N.
  destruct (loop (length (splitlines md)) (splitlines md) init_state)
    as [st|] eqn:L; [|discriminate].
  inversion H; subst r; clear H.
  unfold finish in *. cbn [p_meta p_body] in *.
  destruct (meta_desc st) as [[|c m]|] eqn:M; try discriminate.
  cbn [or_else].
  assert (B : forall m0, meta_desc init_state = Some m0 ->
                 exists parsed, m0 = describe parsed
                   /\ In (py "<p>" ++ parsed ++ py "</p>")
                        (html_lines init_state))
    by (intros m0 D; discriminate).
  destruct (@loop_meta_paragraph (length (splitlines md)) (splitlines md)
              init_state st B L (c :: m) M) as (q & Q1 & Q2).
  apply in_split in Q2. destruct Q2 as (h1 & h2 & Q2).
  exists q, h1, h2. split; [exact Q1|]. rewrite Q2. reflexivity.
Qed.

Lemma description_from_paragraph_witness :
  exists parsed before after,
    p_meta (mkParsed (py "T") (py "some text")
              (py "<h1>T</h1>" ++ [NL] ++ py "<p>some <em>text</em></p>"))
    = describe parsed
    /\ p_body (mkParsed (py "T") (py "some text")
                 (py "<h1>T</h1>" ++ [NL] ++ py "<p>some <em>text</em></p>"))
       = join [NL] (before ++ [py "<p>" ++ parsed ++ py "</p>"] ++ after).
Proof.
  apply (@description_from_paragraph
           (py "# T" ++ [NL] ++ py "some *text*")); vm_compute; reflexivity.
Defined.

(** ** From the iterations to the document *)

(** X20.  A run of the main loop that uses up the lines of a document gives
    its result: title, description and body are read off the state the run
    ends in, so what is known of the iterations is known of the document. *)
Theorem document_of_run (n : nat) (md : str) (st : state) :
  steps n (splitlines md) init_state = Some ([], st) ->
  md_to_html md = Some (finish st).
Proof.
  intros S. destruct (md_to_html_from _ _ S) as (fuel & r & L & E).
  destruct fuel; cbn [loop] in L; inversion L; subst; exact E.
Qed.

Lemma document_of_run_witness :
  md_to_html (py "# T" ++ [NL] ++ py "text")
  = Some (finish (mkState [py "<h1>T</h1>"; py "<p>text</p>"]
                    (Some (py "T")) (Some (py "text")) false [] [])).
Proof.
  apply (@document_of_run 2); vm_compute; reflexivity.
Defined.
